(** * RabbitMQ monitor: rule evaluation and alert de-duplication

    A shallow embedding of [monitor.py] (class [RabbitMQMonitor]) and the
    properties of its cooldown tracker, alert keys, failure counter and
    health rules.

    Modelling conventions.
    - JSON data returned by the management API is a [pyval]; dictionaries are
      association lists read with [dict_get], which is Python's
      [d.get(key, default)].
    - Python numbers ([int] and [float]) are exact rationals [Q]: rounding
      of binary floating point is not modelled.  [bool] is numeric, as in
      Python.
    - The monitor object is the record [RabbitMQMonitor]; the outside world
      (clock, HTTP replies of the management API, replies of the Slack
      webhook) is a set of oracles read in order, and everything the monitor
      emits is appended to a trace.
    - Code that can raise runs in the monad [M]: a state monad over [World]
      whose result is [Ok] or [Raise].  The type [exn] stands for instances
      of Python's [Exception]; interrupts and cancellation, which
      [except Exception] does not catch, are the external stop signal and
      are not part of a cycle.
    - The coroutines of a cycle are taken one after the other, in the order
      [asyncio.gather] lists them; their interleaving at the points where
      they await the network is not modelled.
    - The text of a message is kept as its template and the values it
      interpolates.  What an f-string renders a value that is not a string
      to is a parameter, [render], of the checks. *)

From Stdlib Require Import ZArith QArith Lia Lqa Ascii.
From stdpp Require Import gmap strings list.

Set Warnings "-register-all".

Local Open Scope Z_scope.
Local Open Scope string_scope.

(** ** Python values *)

Inductive pyval :=
| PNone
| PBool (b : bool)
| PNum (q : Q)
| PStr (s : string)
| PList (items : list pyval)
| PDict (entries : list (string * pyval)).

Inductive exn :=
| TypeError
| ValueError
| AttributeError
| ZeroDivisionError
| ClientError
| TimeoutError
| ContentTypeError.

Inductive Res (A : Type) :=
| Ok (a : A)
| Raise (e : exn).
Arguments Ok {A} a.
Arguments Raise {A} e.

Definition Qlt_bool (x y : Q) : bool := negb (Qle_bool y x).

(** [bool] is a subclass of [int]; everything else that is not a number
    makes an ordering comparison or a division raise [TypeError]. *)
Definition num_of (v : pyval) : option Q :=
  match v with
  | PNum q => Some q
  | PBool true => Some 1%Q
  | PBool false => Some 0%Q
  | _ => None
  end.

(** [v > n] *)
Definition py_gt (v : pyval) (n : Q) : Res bool :=
  match num_of v with
  | Some x => Ok (Qlt_bool n x)
  | None => Raise TypeError
  end.

(** [v < n] *)
Definition py_lt (v : pyval) (n : Q) : Res bool :=
  match num_of v with
  | Some x => Ok (Qlt_bool x n)
  | None => Raise TypeError
  end.

(** [v == 0]: equality never raises; a value that is not a number is
    different from [0]. *)
Definition py_eq0 (v : pyval) : bool :=
  match num_of v with
  | Some x => Qeq_bool x 0
  | None => false
  end.

(** [a / b] *)
Definition py_div (a b : pyval) : Res Q :=
  match num_of a, num_of b with
  | Some x, Some y => if Qeq_bool y 0 then Raise ZeroDivisionError else Ok (x / y)%Q
  | _, _ => Raise TypeError
  end.

(** [f"{v:,}"]: the thousands separator is for numbers only. *)
Definition format_grouped (v : pyval) : Res unit :=
  match v with
  | PNum _ | PBool _ => Ok tt
  | PStr _ => Raise ValueError
  | _ => Raise TypeError
  end.

(** Truth value, as tested by [if not v]. *)
Definition truthy (v : pyval) : bool :=
  match v with
  | PNone => false
  | PBool b => b
  | PNum q => negb (Qeq_bool q 0)
  | PStr s => negb (String.eqb s "")
  | PList items => match items with [] => false | _ => true end
  | PDict entries => match entries with [] => false | _ => true end
  end.

Fixpoint assoc (key : string) (entries : list (string * pyval)) : option pyval :=
  match entries with
  | [] => None
  | (k, v) :: rest => if String.eqb k key then Some v else assoc key rest
  end.

(** [d.get(key, default)]; only a dictionary has the method. *)
Definition dict_get (d : pyval) (key : string) (default : pyval) : Res pyval :=
  match d with
  | PDict entries =>
      Ok (match assoc key entries with Some v => v | None => default end)
  | _ => Raise AttributeError
  end.

Fixpoint chars (s : string) : list pyval :=
  match s with
  | EmptyString => []
  | String c rest => PStr (String c EmptyString) :: chars rest
  end.

(** [for x in v]: a list yields its items, a dictionary its keys, a string
    its characters; nothing else is iterable. *)
Definition py_iter (v : pyval) : Res (list pyval) :=
  match v with
  | PList items => Ok items
  | PDict entries => Ok (map (fun kv => PStr (fst kv)) entries)
  | PStr s => Ok (chars s)
  | _ => Raise TypeError
  end.

(** [name in names] for a list of strings. *)
Definition py_in (v : pyval) (names : list string) : bool :=
  match v with
  | PStr s => existsb (String.eqb s) names
  | _ => false
  end.

(** ** Configuration and monitor state *)

Record AlertThresholds := mkThresholds {
  max_queue_length : Z;
  max_unacknowledged_messages : Z;
  min_consumers_per_queue : Z;
  max_memory_usage_percent : Z;
  max_disk_usage_percent : Z;
  processing_halt_threshold : Z;
  connection_failure_threshold : Z }.

Definition default_thresholds : AlertThresholds :=
  mkThresholds 1000 500 1 80 85 100 3.

Record RabbitMQMonitor := mkMonitor {
  slack_webhook_url : option string;
  thresholds : AlertThresholds;
  last_alerts : gmap string Q;
  long_job_queues : list string;
  long_job_threshold : Z;
  long_job_cooldown : Z;
  default_alert_cooldown : Z;
  connection_failures : Z }.

(** [RabbitMQMonitor.__init__] with no environment variable set. *)
Definition init : RabbitMQMonitor :=
  {| slack_webhook_url := None;
     thresholds := default_thresholds;
     last_alerts := ∅;
     long_job_queues :=
       [ "colateral-events-production-location-ranges.delay";
         "colateral-events-production-location-ranges" ];
     long_job_threshold := 1000000;
     long_job_cooldown := 10800;
     default_alert_cooldown := 1800;
     connection_failures := 0 |}.

Definition set_last_alerts (m : gmap string Q) (s : RabbitMQMonitor) : RabbitMQMonitor :=
  {| slack_webhook_url := slack_webhook_url s;
     thresholds := thresholds s;
     last_alerts := m;
     long_job_queues := long_job_queues s;
     long_job_threshold := long_job_threshold s;
     long_job_cooldown := long_job_cooldown s;
     default_alert_cooldown := default_alert_cooldown s;
     connection_failures := connection_failures s |}.

Definition set_connection_failures (n : Z) (s : RabbitMQMonitor) : RabbitMQMonitor :=
  {| slack_webhook_url := slack_webhook_url s;
     thresholds := thresholds s;
     last_alerts := last_alerts s;
     long_job_queues := long_job_queues s;
     long_job_threshold := long_job_threshold s;
     long_job_cooldown := long_job_cooldown s;
     default_alert_cooldown := default_alert_cooldown s;
     connection_failures := n |}.

(** ** Start-up: the list of long job queues *)

(** The strings of this part are texts whose characters are code points
    below 256; the white space [str.strip] removes is then the set below. *)
Definition is_space (c : Ascii.ascii) : bool :=
  let n := Ascii.nat_of_ascii c in
  (Nat.leb 9 n && Nat.leb n 13) || (Nat.leb 28 n && Nat.leb n 32)
  || Nat.eqb n 133 || Nat.eqb n 160.

(** [s.lstrip()] *)
Fixpoint lstrip (s : string) : string :=
  match s with
  | EmptyString => EmptyString
  | String c rest => if is_space c then lstrip rest else s
  end.

(** [s.rstrip()] *)
Fixpoint rstrip (s : string) : string :=
  match s with
  | EmptyString => EmptyString
  | String c rest =>
      match rstrip rest with
      | EmptyString => if is_space c then EmptyString else String c EmptyString
      | kept => String c kept
      end
  end.

(** [s.strip()] *)
Definition strip (s : string) : string := lstrip (rstrip s).

(** [s.split(sep)] for a separator of one character. *)
Fixpoint split_on (sep : Ascii.ascii) (s : string) : list string :=
  match s with
  | EmptyString => [EmptyString]
  | String c rest =>
      if Ascii.eqb c sep
      then EmptyString :: split_on sep rest
      else match split_on sep rest with
           | piece :: pieces => String c piece :: pieces
           | [] => [String c EmptyString]
           end
  end.

(** [sep.join(pieces)] for a separator of one character. *)
Fixpoint join_with (sep : Ascii.ascii) (pieces : list string) : string :=
  match pieces with
  | [] => EmptyString
  | [piece] => piece
  | piece :: rest => piece +:+ String sep (join_with sep rest)
  end.

Fixpoint has_char (c : Ascii.ascii) (s : string) : bool :=
  match s with
  | EmptyString => false
  | String c' rest => Ascii.eqb c' c || has_char c rest
  end.

Definition not_empty (s : string) : bool := negb (String.eqb s "").

(** Only white space, and only white space and commas. *)
Fixpoint all_space (s : string) : bool :=
  match s with
  | EmptyString => true
  | String c rest => is_space c && all_space rest
  end.

Fixpoint blank (s : string) : bool :=
  match s with
  | EmptyString => true
  | String c rest => (is_space c || Ascii.eqb c ","%char) && blank rest
  end.

Definition default_long_job_queues : list string :=
  [ "colateral-events-production-location-ranges.delay";
    "colateral-events-production-location-ranges" ].

(** The value [RabbitMQMonitor.__init__] gives to [long_job_queues], from
    the environment variable [LONG_JOB_QUEUES] ([None] when it is unset). *)
Definition parse_long_job_queues (env : option string) : list string :=
  let long_job_queues_env := match env with Some value => value | None => "" end in
  match List.filter not_empty (map strip (split_on ","%char long_job_queues_env)) with
  | [] => default_long_job_queues
  | names => names
  end.

(** A name as the list holds them: not empty, no white space at either end,
    no comma. *)
Definition clean_name (q : string) : Prop :=
  q <> "" /\ strip q = q /\ has_char ","%char q = false.

(** ** Messages, notifications and the trace *)

Inductive severity := critical | warning | info.

(** The message templates of the monitor, each with the values its f-string
    interpolates. *)
Inductive message :=
| QueueBackupDetected (queue_name messages : pyval) (queue_threshold : Z) (vhost : pyval)
| HighUnacknowledged (queue_name unacked : pyval) (threshold : Z)
| MissingConsumers (queue_name messages consumers : pyval) (minimum : Z)
| ProcessingHalted (queue_name messages publish_rate consume_rate : pyval)
| HighMemoryUsage (node_name : pyval) (mem_percent : Q) (threshold : Z) (mem_used : pyval)
| HighDiskUsage (node_name : pyval) (disk_used_percent : Q) (threshold : Z) (disk_free : pyval)
| NodeDown (node_name : pyval)
| ApiConnectionFailed (failures : Z)
| MonitoringError (e : exn)
| MonitoringStarted (interval : Z).

Record payload := mkPayload {
  color : string;
  title : severity;
  text : message;
  ts : Z }.

(** What the management API answers to one GET: the request raises (no
    connection, timeout), or a response arrives with a status and a body
    that [response.json()] decodes, or fails to decode. *)
Inductive http_reply :=
| RequestRaised (e : exn)
| Response (status : Z) (body : Res pyval).

(** What the Slack webhook answers to one POST. *)
Inductive post_reply :=
| PostRaised (e : exn)
| PostStatus (status : Z).

Inductive delivery :=
| Skipped
| Posted (p : payload) (r : post_reply).

Inductive event :=
| SendSlackAlert (text : message) (sev : severity) (d : delivery)
| ApiRequestFailed (endpoint : string) (status : Z)
| ErrorFetching (endpoint : string) (e : exn)
| RunningHealthChecks
| HealthCheckCompleted
| ErrorDuringHealthChecks (e : exn)
| StartingMonitoring (interval : Z)
| Sleep (interval : Z).

Record World := mkWorld {
  self : RabbitMQMonitor;
  clock : nat -> Q;
  ticks : nat;
  api : nat -> http_reply;
  requests : nat;
  slack : nat -> post_reply;
  posts : nat;
  trace : list event }.

Definition set_self (s : RabbitMQMonitor) (w : World) : World :=
  mkWorld s (clock w) (ticks w) (api w) (requests w) (slack w) (posts w) (trace w).

Definition set_ticks (n : nat) (w : World) : World :=
  mkWorld (self w) (clock w) n (api w) (requests w) (slack w) (posts w) (trace w).

Definition set_requests (n : nat) (w : World) : World :=
  mkWorld (self w) (clock w) (ticks w) (api w) n (slack w) (posts w) (trace w).

Definition set_posts (n : nat) (w : World) : World :=
  mkWorld (self w) (clock w) (ticks w) (api w) (requests w) (slack w) n (trace w).

Definition emit (ev : event) (w : World) : World :=
  mkWorld (self w) (clock w) (ticks w) (api w) (requests w) (slack w) (posts w)
          (trace w ++ [ev]).

(** ** The monad of monitor code *)

Definition M (A : Type) : Type := World -> Res A * World.

Definition ret {A} (a : A) : M A := fun w => (Ok a, w).

Definition raise {A} (e : exn) : M A := fun w => (Raise e, w).

Definition bind {A B} (m : M A) (k : A -> M B) : M B :=
  fun w =>
    match m w with
    | (Ok a, w') => k a w'
    | (Raise e, w') => (Raise e, w')
    end.

Definition lift {A} (r : Res A) : M A := fun w => (r, w).

(** [try: body / except Exception as e: handler(e)] *)
Definition try_except {A} (body : M A) (handler : exn -> M A) : M A :=
  fun w =>
    match body w with
    | (Ok a, w') => (Ok a, w')
    | (Raise e, w') => handler e w'
    end.

Definition modify (f : World -> World) : M unit := fun w => (Ok tt, f w).

Definition get {A} (f : World -> A) : M A := fun w => (Ok (f w), w).

Notation "'let*' x ':=' m 'in' k" := (bind m (fun x => k))
  (at level 10, x name, m at level 100, k at level 200).
Notation "m '>>' k" := (bind m (fun _ => k))
  (at level 90, right associativity).

Definition res_bind {A B} (r : Res A) (k : A -> Res B) : Res B :=
  match r with
  | Ok a => k a
  | Raise e => Raise e
  end.

Notation "'let+' x ':=' r 'in' k" := (res_bind r (fun x => k))
  (at level 10, x name, r at level 100, k at level 200).

Fixpoint for_each {A} (items : list A) (body : A -> M unit) : M unit :=
  match items with
  | [] => ret tt
  | x :: rest => body x >> for_each rest body
  end.

(** [time.time()]: the next reading of the clock. *)
Definition now (w : World) : Q := clock w (ticks w).

Definition tick (w : World) : World := set_ticks (S (ticks w)) w.

Definition time_time : M Q := fun w => (Ok (now w), tick w).

(** ** Cooldown tracker *)

(** [cooldown if cooldown is not None else self.default_alert_cooldown] *)
Definition effective_cooldown (s : RabbitMQMonitor) (cooldown : option Z) : Z :=
  match cooldown with
  | Some c => c
  | None => default_alert_cooldown s
  end.

(** [self.last_alerts[alert_key] = now] *)
Definition record_alert (alert_key : string) (now : Q) (w : World) : World :=
  set_self (set_last_alerts (<[alert_key := now]> (last_alerts (self w))) (self w)) w.

(** [RabbitMQMonitor.should_send_alert] *)
Definition should_send_alert (alert_key : string) (cooldown : option Z) : M bool :=
  let* now := time_time in
  let* s := get self in
  let cd := effective_cooldown s cooldown in
  match last_alerts s !! alert_key with
  | Some last =>
      if Qlt_bool (now - last) (inject_Z cd)
      then ret false
      else modify (record_alert alert_key now) >> ret true
  | None => modify (record_alert alert_key now) >> ret true
  end.

(** ** Notifier *)

(** [int(x)] for a float: truncation towards zero. *)
Definition py_int (x : Q) : Z := Z.quot (Qnum x) (Zpos (Qden x)).

Definition color_of (sev : severity) : string :=
  match sev with
  | critical => "#FF0000"
  | warning => "#FFA500"
  | info => "#36A64F"
  end.

(** [session.post(self.slack_webhook_url, json=payload)]: the next reply of
    the webhook. *)
Definition http_post : M post_reply :=
  fun w => (Ok (slack w (posts w)), set_posts (S (posts w)) w).

(** [RabbitMQMonitor.send_slack_alert].  Each of its four outcomes (no
    webhook configured, status 200, another status, an exception while
    posting) only writes a log line. *)
Definition send_slack_alert (text : message) (sev : severity) : M unit :=
  let* s := get self in
  match slack_webhook_url s with
  | None => modify (emit (SendSlackAlert text sev Skipped))
  | Some url =>
      if String.eqb url ""
      then modify (emit (SendSlackAlert text sev Skipped))
      else
        let* now := time_time in
        let p := mkPayload (color_of sev) sev text (py_int now) in
        let* r := http_post in
        modify (emit (SendSlackAlert text sev (Posted p r)))
  end.

(** The step every rule takes once its condition holds:
    [if self.should_send_alert(alert_key, cooldown): await self.send_slack_alert(text, sev)]. *)
Definition alert (alert_key : string) (cooldown : option Z)
    (text : message) (sev : severity) : M unit :=
  let* ok := should_send_alert alert_key cooldown in
  if ok then send_slack_alert text sev else ret tt.

(** ** Metrics source *)

(** [session.get(url, ...)]: the next reply of the management API. *)
Definition http_get : M http_reply :=
  fun w => (Ok (api w (requests w)), set_requests (S (requests w)) w).

Definition add_connection_failure (w : World) : World :=
  set_self (set_connection_failures (connection_failures (self w) + 1) (self w)) w.

Definition reset_connection_failures (w : World) : World :=
  set_self (set_connection_failures 0 (self w)) w.

(** [RabbitMQMonitor.get_api_data] *)
Definition get_api_data (endpoint : string) : M pyval :=
  try_except
    (let* r := http_get in
     match r with
     | RequestRaised e => raise e
     | Response status body =>
         if Z.eqb status 200
         then modify reset_connection_failures >> lift body
         else modify (emit (ApiRequestFailed endpoint status)) >> ret PNone
     end)
    (fun e =>
       modify add_connection_failure >>
       modify (emit (ErrorFetching endpoint e)) >>
       ret PNone).

(** ** Alert keys *)

Inductive queue_rule := QueueBackup | Unacked | NoConsumers | ProcessingHalt.

Inductive node_rule := Memory | Disk | NodeStatus.

Inductive alert_source :=
| OnQueue (r : queue_rule) (queue_name : string)
| OnNode (r : node_rule) (node_name : string)
| Connectivity.

(** The f-strings that build [alert_key] in the three checks. *)
Definition alert_key (a : alert_source) : string :=
  match a with
  | OnQueue QueueBackup queue_name => "queue_backup_" +:+ queue_name
  | OnQueue Unacked queue_name => "unacked_" +:+ queue_name
  | OnQueue NoConsumers queue_name => "no_consumers_" +:+ queue_name
  | OnQueue ProcessingHalt queue_name => "processing_halt_" +:+ queue_name
  | OnNode Memory node_name => "memory_" +:+ node_name
  | OnNode Disk node_name => "disk_" +:+ node_name
  | OnNode NodeStatus node_name => "node_down_" +:+ node_name
  | Connectivity => "connection_failures"
  end.

(** [RabbitMQMonitor.get_queue_config] *)
Definition get_queue_config (s : RabbitMQMonitor) (queue_name : pyval) : Z * Z :=
  if py_in queue_name (long_job_queues s)
  then (long_job_threshold s, long_job_cooldown s)
  else (max_queue_length (thresholds s), default_alert_cooldown s).

(** ** Rule conditions *)

(** [messages > queue_threshold] *)
Definition queue_backup_condition (messages : pyval) (queue_threshold : Z) : Res bool :=
  py_gt messages (inject_Z queue_threshold).

(** [unacked > self.thresholds.max_unacknowledged_messages] *)
Definition unacked_condition (unacked : pyval) (threshold : Z) : Res bool :=
  py_gt unacked (inject_Z threshold).

(** [messages > 0 and consumers < self.thresholds.min_consumers_per_queue] *)
Definition consumers_condition (messages consumers : pyval) (minimum : Z) : Res bool :=
  let+ some := py_gt messages 0 in
  if some then py_lt consumers (inject_Z minimum) else Ok false.

(** [publish_rate] and [consume_rate] of a queue snapshot. *)
Definition queue_rates (queue : pyval) : Res (pyval * pyval) :=
  let+ message_stats := dict_get queue "message_stats" (PDict []) in
  let+ publish_details := dict_get message_stats "publish_details" (PDict []) in
  let+ publish_rate := dict_get publish_details "rate" (PNum 0) in
  let+ deliver_get_details := dict_get message_stats "deliver_get_details" (PDict []) in
  let+ consume_rate := dict_get deliver_get_details "rate" (PNum 0) in
  Ok (publish_rate, consume_rate).

(** [messages > self.thresholds.processing_halt_threshold and
     consume_rate == 0 and publish_rate > 0] *)
Definition processing_halt_condition
    (messages publish_rate consume_rate : pyval) (halt_threshold : Z) : Res bool :=
  let+ piling := py_gt messages (inject_Z halt_threshold) in
  if piling
  then if py_eq0 consume_rate then py_gt publish_rate 0 else Ok false
  else Ok false.

(** [(mem_used / mem_limit) * 100 if mem_limit > 0 else 0] *)
Definition memory_percent (mem_used mem_limit : pyval) : Res Q :=
  let+ usable := py_gt mem_limit 0 in
  if usable
  then let+ ratio := py_div mem_used mem_limit in Ok (ratio * 100)%Q
  else Ok 0%Q.

(** ["critical" if mem_percent > 90 else "warning"] *)
Definition memory_severity (mem_percent : Q) : severity :=
  if Qlt_bool 90 mem_percent then critical else warning.

(** [disk_limit > 0 and disk_free > 0] *)
Definition disk_usable (disk_free disk_limit : pyval) : Res bool :=
  let+ limited := py_gt disk_limit 0 in
  if limited then py_gt disk_free 0 else Ok false.

(** [(1 - (disk_free / disk_limit)) * 100] *)
Definition disk_used_percent (disk_free disk_limit : pyval) : Res Q :=
  let+ ratio := py_div disk_free disk_limit in
  Ok ((1 - ratio) * 100)%Q.

(** ** Vocabulary of the properties *)

(** The decision of [should_send_alert] in a world: no record for the key,
    or the recorded time is at least the cooldown behind the clock. *)
Definition cooldown_elapsed (alert_key : string) (cooldown : option Z) (w : World) : bool :=
  match last_alerts (self w) !! alert_key with
  | Some last =>
      negb (Qlt_bool (now w - last) (inject_Z (effective_cooldown (self w) cooldown)))
  | None => true
  end.

(** [n] successive evaluations of the same step. *)
Fixpoint evaluations (n : nat) (step : M unit) : M unit :=
  match n with
  | O => ret tt
  | S k => step >> evaluations k step
  end.

(** Between [w] and [w'] exactly one notification was handed to the
    notifier, and nothing else was written to the trace. *)
Definition notified (text : message) (sev : severity) (w w' : World) : Prop :=
  exists d, trace w' = (trace w ++ [SendSlackAlert text sev d])%list.

(** What [send_slack_alert] leaves behind: one entry in the trace, and
    possibly later readings of the clock and of the webhook. *)
Definition sent (text : message) (sev : severity) (w w' : World) : Prop :=
  self w' = self w /\ clock w' = clock w /\ api w' = api w /\
  requests w' = requests w /\ slack w' = slack w /\
  (ticks w <= ticks w')%nat /\ notified text sev w w'.

(** In world [w] the step behaves as an alert on key [k] with cooldown
    [cd]: with no record for [k], or a record at least [cd] old, it hands
    one notification to the notifier and records the time of the call;
    with a younger record it does nothing but read the clock. *)
Definition alerts_at (w : World) (cd : Z) (k : string) (text : message)
    (sev : severity) (step : M unit) : Prop :=
  ((last_alerts (self w) !! k = None \/
    exists t, last_alerts (self w) !! k = Some t /\ (inject_Z cd <= now w - t)%Q) ->
   fst (step w) = Ok tt /\
   notified text sev w (snd (step w)) /\
   last_alerts (self (snd (step w))) !! k = Some (now w)) /\
  (forall t, last_alerts (self w) !! k = Some t ->
             (now w - t < inject_Z cd)%Q ->
             step w = (Ok tt, tick w)).

(** What a piece of monitor code may change between two worlds: records of
    the cooldown map under the keys in [K] only, and new entries of the
    trace, all of them in [P]. *)
Definition changes (K : string -> Prop) (P : event -> Prop) (w w' : World) : Prop :=
  (forall k, ~ K k -> last_alerts (self w') !! k = last_alerts (self w) !! k) /\
  exists evs, trace w' = (trace w ++ evs)%list /\ Forall P evs.

Definition keeps {A} (K : string -> Prop) (P : event -> Prop) (m : M A) : Prop :=
  forall w, changes K P w (snd (m w)).



(** The entries the three checks write to the trace: notifications of the
    eight rules and the two log lines of a failed fetch. *)
Definition from_check (ev : event) : Prop :=
  match ev with
  | SendSlackAlert (MonitoringError _) _ _ => False
  | SendSlackAlert (MonitoringStarted _) _ _ => False
  | SendSlackAlert _ _ _ => True
  | ApiRequestFailed _ _ => True
  | ErrorFetching _ _ => True
  | _ => False
  end.

Definition count (f : event -> bool) (evs : list event) : nat :=
  length (filter (fun ev => f ev = true) evs).

(** What was written to the trace between [w] and [w']. *)
Definition new_events (w w' : World) : list event :=
  drop (length (trace w)) (trace w').

(** The same world with another notifier: webhook address and replies. *)
Definition set_slack_webhook_url (url : option string) (s : RabbitMQMonitor) : RabbitMQMonitor :=
  {| slack_webhook_url := url;
     thresholds := thresholds s;
     last_alerts := last_alerts s;
     long_job_queues := long_job_queues s;
     long_job_threshold := long_job_threshold s;
     long_job_cooldown := long_job_cooldown s;
     default_alert_cooldown := default_alert_cooldown s;
     connection_failures := connection_failures s |}.

Definition with_notifier (url : option string) (replies : nat -> post_reply) (w : World) : World :=
  mkWorld (set_slack_webhook_url url (self w)) (clock w) (ticks w) (api w) (requests w)
          replies (posts w) (trace w).

(** The texts handed to the notifier, in order. *)
Definition notifications (evs : list event) : list message :=
  omap (fun ev => match ev with SendSlackAlert text _ _ => Some text | _ => None end) evs.

(** ** Vocabulary of the invariants *)

(** The relation [R] holds between every world and the world a piece of
    monitor code leaves. *)
Definition follows {A} (R : World -> World -> Prop) (m : M A) : Prop :=
  forall w, R w (snd (m w)).

(** The log lines of the cycle and of the scheduling loop. *)
Definition scheduler_event (ev : event) : Prop :=
  match ev with
  | RunningHealthChecks | HealthCheckCompleted | ErrorDuringHealthChecks _
  | StartingMonitoring _ | Sleep _ => True
  | _ => False
  end.

(** What is fixed when the monitor starts: its settings and the outside
    world it talks to. *)
Definition same_setting (w w' : World) : Prop :=
  slack_webhook_url (self w') = slack_webhook_url (self w) /\
  thresholds (self w') = thresholds (self w) /\
  long_job_queues (self w') = long_job_queues (self w) /\
  long_job_threshold (self w') = long_job_threshold (self w) /\
  long_job_cooldown (self w') = long_job_cooldown (self w) /\
  default_alert_cooldown (self w') = default_alert_cooldown (self w) /\
  clock w' = clock w /\ api w' = api w /\ slack w' = slack w.

(** Every recorded time is a reading of the clock made before. *)
Definition records_are_readings (w : World) : Prop :=
  forall k t, last_alerts (self w) !! k = Some t ->
              exists i, (i < ticks w)%nat /\ t = clock w i.

Definition monotone (clock : nat -> Q) : Prop :=
  forall i j, (i <= j)%nat -> (clock i <= clock j)%Q.

(** [not self.slack_webhook_url] is false. *)
Definition configured (s : RabbitMQMonitor) : bool :=
  match slack_webhook_url s with
  | Some url => negb (String.eqb url "")
  | None => false
  end.

Definition is_notification (ev : event) : bool :=
  match ev with
  | SendSlackAlert _ _ _ => true
  | _ => false
  end.

Definition is_posted (ev : event) : bool :=
  match ev with
  | SendSlackAlert _ _ (Posted _ _) => true
  | _ => false
  end.



(** The failure counter stays at or above zero and rises by at most one
    per request made. *)
Definition counter_bounded (w w' : World) : Prop :=
  0 <= connection_failures (self w) ->
  0 <= connection_failures (self w') /\
  connection_failures (self w') - Z.of_nat (requests w') <=
  connection_failures (self w) - Z.of_nat (requests w).

(** Records are kept: a recorded key stays recorded, and under a clock that
    never goes back a recorded time never goes back. *)
Definition records_kept (w w' : World) : Prop :=
  clock w' = clock w /\ (ticks w <= ticks w')%nat /\
  (forall k, is_Some (last_alerts (self w) !! k) -> is_Some (last_alerts (self w') !! k)) /\
  (records_are_readings w -> records_are_readings w') /\
  (monotone (clock w) -> records_are_readings w ->
   forall k t t', last_alerts (self w) !! k = Some t ->
                  last_alerts (self w') !! k = Some t' -> (t <= t')%Q).

(** Every request to the webhook shows in the trace as one posted
    notification; with a webhook every notification is posted, without one
    none is. *)
Definition posts_accounted (w w' : World) : Prop :=
  slack_webhook_url (self w') = slack_webhook_url (self w) /\
  exists evs,
    trace w' = (trace w ++ evs)%list /\
    posts w' = (posts w + count is_posted evs)%nat /\
    count is_posted evs =
      if configured (self w) then count is_notification evs else O.

(** The step makes no request to the management API and leaves the failure
    counter alone. *)
Definition api_untouched (w w' : World) : Prop :=
  requests w' = requests w /\
  connection_failures (self w') = connection_failures (self w).

(** The severity each text is sent with, and what a well formed entry of
    the trace is: a notification carries the severity of its text, and the
    payload posted for it carries that text, that severity as title and
    the colour of that severity. *)
Definition severity_of (text : message) : severity :=
  match text with
  | QueueBackupDetected _ _ _ _ => critical
  | HighUnacknowledged _ _ _ => warning
  | MissingConsumers _ _ _ _ => warning
  | ProcessingHalted _ _ _ _ => critical
  | HighMemoryUsage _ mem_percent _ _ => memory_severity mem_percent
  | HighDiskUsage _ _ _ _ => critical
  | NodeDown _ => critical
  | ApiConnectionFailed _ => critical
  | MonitoringError _ => critical
  | MonitoringStarted _ => info
  end.

Definition well_graded (ev : event) : Prop :=
  match ev with
  | SendSlackAlert body sev d =>
      sev = severity_of body /\
      match d with
      | Skipped => True
      | Posted p _ => text p = body /\ title p = sev /\ color p = color_of sev
      end
  | _ => True
  end.

(** ** Example monitors, worlds and snapshots *)

(** A clock read every [step] seconds from 0, an API that never answers
    and a webhook that accepts everything. *)
Definition every (step : Z) (n : nat) : Q := inject_Z (step * Z.of_nat n).

Definition world_of (s : RabbitMQMonitor) (clock : nat -> Q) (api : nat -> http_reply) : World :=
  mkWorld s clock 0 api 0 (fun _ => PostStatus 200) 0 [].

Definition unreachable (n : nat) : http_reply := RequestRaised TimeoutError.

Definition fresh_world : World := world_of init (every 600) unreachable.

(** A rendering of values that are not strings; the examples name their
    queues and nodes with strings. *)
Definition no_render (v : pyval) : string := "".

(** A monitor that treats the queue [slow] as a long job queue. *)
Definition slow_monitor : RabbitMQMonitor :=
  {| slack_webhook_url := Some "https://hooks.example/T000";
     thresholds := default_thresholds;
     last_alerts := ∅;
     long_job_queues := ["slow"];
     long_job_threshold := 5000;
     long_job_cooldown := 10800;
     default_alert_cooldown := 1800;
     connection_failures := 0 |}.

Definition slow_world : World := world_of slow_monitor (every 600) unreachable.

Definition slow_queue (messages : Z) : pyval :=
  PDict [("name", PStr "slow"); ("vhost", PStr "/");
         ("messages", PNum (inject_Z messages));
         ("messages_unacknowledged", PNum 700);
         ("consumers", PNum 0);
         ("message_stats",
          PDict [("publish_details", PDict [("rate", PNum (5 # 2))]);
                 ("deliver_get_details", PDict [("rate", PNum 0)])])].

(** Two queues with one name in two vhosts. *)
Definition orders_default : pyval :=
  PDict [("name", PStr "orders"); ("vhost", PStr "/");
         ("messages", PNum 1500); ("consumers", PNum 2)].

Definition orders_staging : pyval :=
  PDict [("name", PStr "orders"); ("vhost", PStr "staging");
         ("messages", PNum 1500); ("consumers", PNum 2)].

(** A monitor that has counted two failures, and an API that answers 503,
    or 200 with a body that is not JSON. *)
Definition two_failures : RabbitMQMonitor := set_connection_failures 2 init.

Definition unavailable (n : nat) : http_reply := Response 503 (Ok PNone).

Definition garbled (n : nat) : http_reply := Response 200 (Raise ContentTypeError).

(** Three fetches and a connectivity check; then the same after one more
    fetch. *)
Definition three_fetches_then (check : M unit) : M unit :=
  get_api_data "queues" >> get_api_data "nodes" >> get_api_data "queues" >> check.

Definition flapping_run (check : M unit) : M unit :=
  three_fetches_then check >> get_api_data "nodes" >> three_fetches_then check.

(** Three failures, one success, three failures again, one minute apart. *)
Definition flapping (n : nat) : http_reply :=
  match n with
  | 3%nat => Response 200 (Ok (PList []))
  | _ => RequestRaised ClientError
  end.

Definition flapping_world : World := world_of init (every 60) flapping.








(** A world with one record, made at the first reading of the clock. *)
Definition recorded_world : World :=
  snd (should_send_alert "node_down_rabbit@a" None fresh_world).

(** A queue that only tells its name, with a null consumers field; a queue
    with messages and no consumer; a node that only tells its name; a node
    whose free disk space is a tenth of the limit. *)
Definition idle_entries : list (string * pyval) :=
  [("name", PStr "idle"); ("consumers", PNone)].

Definition starving_queue : pyval :=
  PDict [("name", PStr "jobs"); ("messages", PNum 10); ("consumers", PNum 0)].

Definition bare_entries : list (string * pyval) := [("name", PStr "rabbit@b")].


(** An API that answers every request with an error object. *)
Definition refused (n : nat) : http_reply :=
  Response 200 (Ok (PDict [("error", PStr "not_authorised")])).

Definition refused_world : World := world_of init (every 60) refused.

(** ** The checks *)

Section Monitor.

(** What an f-string placeholder renders a value that is not a string to;
    the digits of numbers and the layout of containers are not modelled. *)
Variable render : pyval -> string.

Definition py_str (v : pyval) : string :=
  match v with
  | PStr s => s
  | _ => render v
  end.

(** Queue backup detection, for one queue. *)
Definition queue_backup (queue_name vhost messages : pyval)
    (queue_threshold queue_cooldown : Z) : M unit :=
  let* fires := lift (queue_backup_condition messages queue_threshold) in
  if fires
  then alert (alert_key (OnQueue QueueBackup (py_str queue_name))) (Some queue_cooldown)
             (QueueBackupDetected queue_name messages queue_threshold vhost) critical
  else ret tt.

(** Unacknowledged messages, for one queue. *)
Definition unacknowledged (queue queue_name : pyval) (queue_cooldown : Z) : M unit :=
  let* s := get self in
  let threshold := max_unacknowledged_messages (thresholds s) in
  let* unacked := lift (dict_get queue "messages_unacknowledged" (PNum 0)) in
  let* fires := lift (unacked_condition unacked threshold) in
  if fires
  then alert (alert_key (OnQueue Unacked (py_str queue_name))) (Some queue_cooldown)
             (HighUnacknowledged queue_name unacked threshold) warning
  else ret tt.

(** Consumer monitoring, for one queue. *)
Definition consumer_monitoring (queue queue_name messages : pyval)
    (queue_cooldown : Z) : M unit :=
  let* s := get self in
  let minimum := min_consumers_per_queue (thresholds s) in
  let* consumers := lift (dict_get queue "consumers" (PNum 0)) in
  let* fires := lift (consumers_condition messages consumers minimum) in
  if fires
  then alert (alert_key (OnQueue NoConsumers (py_str queue_name))) (Some queue_cooldown)
             (MissingConsumers queue_name messages consumers minimum) warning
  else ret tt.

(** Processing halt detection, for one queue. *)
Definition processing_halt (queue queue_name messages : pyval)
    (queue_cooldown : Z) : M unit :=
  let* s := get self in
  let* rates := lift (queue_rates queue) in
  let publish_rate := fst rates in
  let consume_rate := snd rates in
  let* fires := lift (processing_halt_condition messages publish_rate consume_rate
                        (processing_halt_threshold (thresholds s))) in
  if fires
  then alert (alert_key (OnQueue ProcessingHalt (py_str queue_name))) (Some queue_cooldown)
             (ProcessingHalted queue_name messages publish_rate consume_rate) critical
  else ret tt.

(** The body of the loop of [check_queue_health]. *)
Definition check_queue (queue : pyval) : M unit :=
  let* queue_name := lift (dict_get queue "name" (PStr "unknown")) in
  let* vhost := lift (dict_get queue "vhost" (PStr "/")) in
  let* s := get self in
  let config := get_queue_config s queue_name in
  let queue_threshold := fst config in
  let queue_cooldown := snd config in
  let* messages := lift (dict_get queue "messages" (PNum 0)) in
  queue_backup queue_name vhost messages queue_threshold queue_cooldown >>
  unacknowledged queue queue_name queue_cooldown >>
  consumer_monitoring queue queue_name messages queue_cooldown >>
  processing_halt queue queue_name messages queue_cooldown.

(** The identity of a queue in the words of the specification: its name
    and its vhost. *)
Definition queue_identity (queue : pyval) : Res (pyval * pyval) :=
  let+ queue_name := dict_get queue "name" (PStr "unknown") in
  let+ vhost := dict_get queue "vhost" (PStr "/") in
  Ok (queue_name, vhost).

(** The key under which [check_queue] asks the tracker for a rule. *)
Definition queue_alert_key (r : queue_rule) (queue : pyval) : Res string :=
  let+ queue_name := dict_get queue "name" (PStr "unknown") in
  Ok (alert_key (OnQueue r (py_str queue_name))).

(** [RabbitMQMonitor.check_queue_health] *)
Definition check_queue_health : M unit :=
  let* queues := get_api_data "queues" in
  if negb (truthy queues)
  then ret tt
  else let* items := lift (py_iter queues) in
       for_each items check_queue.

(** Memory usage monitoring, for one node. *)
Definition memory_usage (node node_name : pyval) : M unit :=
  let* s := get self in
  let threshold := max_memory_usage_percent (thresholds s) in
  let* mem_used := lift (dict_get node "mem_used" (PNum 0)) in
  let* mem_limit := lift (dict_get node "mem_limit" (PNum 1)) in
  let* mem_percent := lift (memory_percent mem_used mem_limit) in
  if Qlt_bool (inject_Z threshold) mem_percent
  then let* ok := should_send_alert (alert_key (OnNode Memory (py_str node_name))) None in
       if ok
       then let severity := memory_severity mem_percent in
            let* _ := lift (format_grouped mem_used) in
            send_slack_alert (HighMemoryUsage node_name mem_percent threshold mem_used)
                             severity
       else ret tt
  else ret tt.

(** Disk usage monitoring, for one node. *)
Definition disk_usage (node node_name : pyval) : M unit :=
  let* s := get self in
  let threshold := max_disk_usage_percent (thresholds s) in
  let* disk_free := lift (dict_get node "disk_free" (PNum 1)) in
  let* disk_limit := lift (dict_get node "disk_free_limit" (PNum 0)) in
  let* usable := lift (disk_usable disk_free disk_limit) in
  if usable
  then let* percent := lift (disk_used_percent disk_free disk_limit) in
       if Qlt_bool (inject_Z threshold) percent
       then alert (alert_key (OnNode Disk (py_str node_name))) None
                  (HighDiskUsage node_name percent threshold disk_free) critical
       else ret tt
  else ret tt.

(** Node status, for one node. *)
Definition node_status (node node_name : pyval) : M unit :=
  let* running := lift (dict_get node "running" (PBool false)) in
  if negb (truthy running)
  then alert (alert_key (OnNode NodeStatus (py_str node_name))) None
             (NodeDown node_name) critical
  else ret tt.

(** The body of the loop of [check_node_health]. *)
Definition check_node (node : pyval) : M unit :=
  let* node_name := lift (dict_get node "name" (PStr "unknown")) in
  memory_usage node node_name >>
  disk_usage node node_name >>
  node_status node node_name.

(** The key under which [check_node] asks the tracker for a rule. *)
Definition node_alert_key (r : node_rule) (node : pyval) : Res string :=
  let+ node_name := dict_get node "name" (PStr "unknown") in
  Ok (alert_key (OnNode r (py_str node_name))).

(** [RabbitMQMonitor.check_node_health] *)
Definition check_node_health : M unit :=
  let* nodes := get_api_data "nodes" in
  if negb (truthy nodes)
  then ret tt
  else let* items := lift (py_iter nodes) in
       for_each items check_node.

(** [RabbitMQMonitor.check_connections] *)
Definition check_connections : M unit :=
  let* s := get self in
  if Z.leb (connection_failure_threshold (thresholds s)) (connection_failures s)
  then alert (alert_key Connectivity) None
             (ApiConnectionFailed (connection_failures s)) critical
  else ret tt.

(** ** The cycle and the scheduling loop *)

(** [asyncio.gather], with the tasks taken one after the other in
    the order they are listed.  A task that raises does not cancel the
    others: all of them run, and the first exception raised is the one the
    caller receives. *)
Fixpoint gather (tasks : list (M unit)) : M unit :=
  match tasks with
  | [] => ret tt
  | task :: rest =>
      fun w =>
        match task w with
        | (Ok _, w') => gather rest w'
        | (Raise e, w') => (Raise e, snd (gather rest w'))
        end
  end.

(** [RabbitMQMonitor.run_health_check] *)
Definition run_health_check : M unit :=
  modify (emit RunningHealthChecks) >>
  try_except
    (gather [check_queue_health; check_node_health; check_connections] >>
     modify (emit HealthCheckCompleted))
    (fun e =>
       modify (emit (ErrorDuringHealthChecks e)) >>
       send_slack_alert (MonitoringError e) critical).

(** The first [n] rounds of the [while True] loop of [start_monitoring]. *)
Fixpoint monitoring_loop (n : nat) (interval : Z) : M unit :=
  match n with
  | O => ret tt
  | S k =>
      run_health_check >>
      modify (emit (Sleep interval)) >>
      monitoring_loop k interval
  end.

(** [RabbitMQMonitor.start_monitoring], cut after [n] rounds of its loop.
    The loop has no exit: the result is [Ok] when the [n] rounds have run
    and [Raise] when an exception left the loop before. *)
Definition start_monitoring (n : nat) (interval : Z) : M unit :=
  modify (emit (StartingMonitoring interval)) >>
  send_slack_alert (MonitoringStarted interval) info >>
  monitoring_loop n interval.

(** * Properties *)

(** ** Arithmetic of the comparisons *)

Lemma Qlt_bool_lt (x y : Q) : Qlt_bool x y = true <-> (x < y)%Q.
Proof.
  unfold Qlt_bool. rewrite negb_true_iff. split.
  - intros H. apply Qnot_le_lt. intros Hle.
    apply Qle_bool_iff in Hle. congruence.
  - intros H. destruct (Qle_bool y x) eqn:E; [|reflexivity].
    apply Qle_bool_iff in E. exfalso. exact (Qlt_not_le _ _ H E).
Qed.

Lemma Qlt_bool_ge (x y : Q) : Qlt_bool x y = false <-> (y <= x)%Q.
Proof.
  unfold Qlt_bool. rewrite negb_false_iff. apply Qle_bool_iff.
Qed.

(** ** How the tracker and the notifier run *)

Lemma should_send_alert_run (k : string) (c : option Z) (w : World) :
  should_send_alert k c w =
    if cooldown_elapsed k c w
    then (Ok true, record_alert k (now w) (tick w))
    else (Ok false, tick w).
Proof.
  unfold should_send_alert, cooldown_elapsed, bind, time_time, get, modify, ret.
  cbn [self tick set_ticks].
  destruct (last_alerts (self w) !! k) as [last|]; [|reflexivity].
  destruct (Qlt_bool _ _); reflexivity.
Qed.

Lemma send_slack_alert_run (text : message) (sev : severity) (w : World) :
  exists w', send_slack_alert text sev w = (Ok tt, w') /\ sent text sev w w'.
Proof.
  unfold send_slack_alert, bind, get, modify, time_time, http_post, sent, notified.
  cbn [self].
  destruct (slack_webhook_url (self w)) as [url|].
  - destruct (String.eqb url "").
    + eexists; split; [reflexivity|]. cbn. repeat split; eauto.
    + eexists; split; [reflexivity|]. cbn. repeat split; eauto.
  - eexists; split; [reflexivity|]. cbn. repeat split; eauto.
Qed.

Lemma alert_run (k : string) (c : option Z) (text : message) (sev : severity) (w : World) :
  alert k c text sev w =
    if cooldown_elapsed k c w
    then send_slack_alert text sev (record_alert k (now w) (tick w))
    else (Ok tt, tick w).
Proof.
  unfold alert, bind. rewrite should_send_alert_run.
  destruct (cooldown_elapsed k c w); reflexivity.
Qed.
(** ** The cooldown window *)

Lemma suppressed_evaluations (k : string) (c : option Z) (text : message)
    (sev : severity) (t0 : Q) (n : nat) :
  forall w,
    last_alerts (self w) !! k = Some t0 ->
    (forall i, (i < n)%nat ->
       (clock w (ticks w + i) - t0 < inject_Z (effective_cooldown (self w) c))%Q) ->
    evaluations n (alert k c text sev) w = (Ok tt, set_ticks (ticks w + n) w).
Proof.
  induction n as [|n IH]; intros w Hlast Hin.
  - cbn. unfold ret. destruct w; cbn. rewrite Nat.add_0_r. reflexivity.
  - cbn [evaluations]. unfold bind. rewrite alert_run.
    assert (Hsup : cooldown_elapsed k c w = false).
    { unfold cooldown_elapsed. rewrite Hlast. apply negb_false_iff.
      apply Qlt_bool_lt. specialize (Hin O). rewrite Nat.add_0_r in Hin.
      apply Hin. lia. }
    rewrite Hsup. rewrite IH.
    + unfold tick. destruct w; cbn. rewrite Nat.add_succ_r. reflexivity.
    + exact Hlast.
    + intros i Hi. cbn. specialize (Hin (S i)).
      rewrite Nat.add_succ_r in Hin. apply Hin. lia.
Qed.

(** C1.  [should_send_alert] answers true, and records the time of the call
    for the key, exactly when the key has no record or the recorded time is
    at least the cooldown behind; hence, for a rule whose condition keeps
    holding, the first evaluation notifies, the evaluations made strictly
    less than the cooldown after it notify nothing, and the first one made
    at or after the cooldown notifies again. *)
Theorem should_send_alert_cooldown (k : string) (cooldown : option Z) (w : World) :
  let cd := inject_Z (effective_cooldown (self w) cooldown) in
  let last := last_alerts (self w) !! k in
  let r := should_send_alert k cooldown w in
  (exists b, fst r = Ok b) /\
  ((fst r = Ok true /\ last_alerts (self (snd r)) !! k = Some (now w)) <->
   (last = None \/ exists t, last = Some t /\ (cd <= now w - t)%Q)) /\
  (forall (text : message) (sev : severity) (n : nat),
     let evaluation := alert k cooldown text sev in
     let w1 := snd (evaluation w) in
     let wn := snd (evaluations n evaluation w1) in
     last = None ->
     (forall i, (i < n)%nat -> (clock w (ticks w1 + i) - now w < cd)%Q) ->
     (cd <= clock w (ticks w1 + n) - now w)%Q ->
     notified text sev w w1 /\
     trace wn = trace w1 /\
     notified text sev wn (snd (evaluation wn))).
Proof.
  cbn zeta. rewrite should_send_alert_run. split; [|split].
  - destruct (cooldown_elapsed k cooldown w); eauto.
  - unfold cooldown_elapsed.
    destruct (last_alerts (self w) !! k) as [t|] eqn:Hk.
    + destruct (Qlt_bool _ _) eqn:Hlt; cbn [negb fst snd].
      * split.
        -- intros [H _]. discriminate.
        -- intros [H | (t' & Ht' & Hle)]; [discriminate|].
           injection Ht' as <-. apply Qlt_bool_lt in Hlt.
           exfalso. exact (Qlt_not_le _ _ Hlt Hle).
      * split.
        -- intros _. right. exists t. split; [reflexivity|].
           apply Qlt_bool_ge in Hlt. exact Hlt.
        -- intros _. split; [reflexivity|]. cbn. apply lookup_insert_eq.
    + cbn [fst snd]. split.
      * intros _. left. reflexivity.
      * intros _. split; [reflexivity|]. cbn. apply lookup_insert_eq.
  - intros text sev n Hnone Hin Hout.
    rewrite alert_run in *.
    assert (Hfirst : cooldown_elapsed k cooldown w = true).
    { unfold cooldown_elapsed. rewrite Hnone. reflexivity. }
    rewrite Hfirst in *.
    destruct (send_slack_alert_run text sev (record_alert k (now w) (tick w)))
      as (w1 & Hrun & Hself & Hclock & _ & _ & _ & Hticks & Hnot).
    rewrite Hrun in *. cbn [snd] in *.
    assert (Hrec : last_alerts (self w1) !! k = Some (now w)).
    { rewrite Hself. cbn. apply lookup_insert_eq. }
    assert (Hcd : effective_cooldown (self w1) cooldown = effective_cooldown (self w) cooldown).
    { rewrite Hself. destruct cooldown; reflexivity. }
    assert (Hck : clock w1 = clock w) by (rewrite Hclock; reflexivity).
    rewrite (suppressed_evaluations k cooldown text sev (now w) n w1 Hrec).
    2:{ intros i Hi. rewrite Hcd, Hck. apply Hin. exact Hi. }
    cbn [snd]. split; [|split].
    + destruct Hnot as [d Hd]. exists d. rewrite Hd. reflexivity.
    + reflexivity.
    + rewrite alert_run.
      assert (Hagain : cooldown_elapsed k cooldown (set_ticks (ticks w1 + n) w1) = true).
      { unfold cooldown_elapsed. cbn [self set_ticks]. rewrite Hrec.
        apply negb_true_iff. apply Qlt_bool_ge.
        unfold now. cbn [clock ticks set_ticks]. rewrite Hcd, Hck. exact Hout. }
      rewrite Hagain.
      destruct (send_slack_alert_run text sev
                  (record_alert k (now (set_ticks (ticks w1 + n) w1))
                     (tick (set_ticks (ticks w1 + n) w1))))
        as (w2 & Hrun2 & _ & _ & _ & _ & _ & _ & d & Hd).
      rewrite Hrun2. cbn [snd]. exists d. rewrite Hd. reflexivity.
Qed.

(** ** Who writes the cooldown state *)

Lemma send_slack_alert_last_alerts (text : message) (sev : severity) (w : World) :
  fst (send_slack_alert text sev w) = Ok tt /\
  self (snd (send_slack_alert text sev w)) = self w.
Proof.
  destruct (send_slack_alert_run text sev w) as (w' & Hrun & Hself & _).
  rewrite Hrun. split; [reflexivity|exact Hself].
Qed.

Lemma alert_last_alerts (k : string) (c : option Z) (text : message)
    (sev : severity) (w : World) :
  last_alerts (self (snd (alert k c text sev w))) =
  last_alerts (self (snd (should_send_alert k c w))).
Proof.
  rewrite alert_run, should_send_alert_run.
  destruct (cooldown_elapsed k c w); [|reflexivity].
  cbn [snd].
  destruct (send_slack_alert_last_alerts text sev (record_alert k (now w) (tick w)))
    as [_ Hself].
  rewrite Hself. reflexivity.
Qed.

(** C5.  The map of last alert times is written only by a check that
    answers true: a check that answers false leaves the map as it was, a
    check that answers true changes no key but its own, sending a
    notification never changes the map whatever the notifier does
    (delivered, refused, failed or skipped), and what an alert step leaves
    in the map is what the check wrote, whatever the notifier is. *)
Theorem cooldown_state_frame :
  (forall k c w,
     fst (should_send_alert k c w) = Ok false ->
     last_alerts (self (snd (should_send_alert k c w))) = last_alerts (self w)) /\
  (forall k c w k',
     fst (should_send_alert k c w) = Ok true ->
     k' <> k ->
     last_alerts (self (snd (should_send_alert k c w))) !! k' =
     last_alerts (self w) !! k') /\
  (forall text sev w,
     fst (send_slack_alert text sev w) = Ok tt /\
     last_alerts (self (snd (send_slack_alert text sev w))) = last_alerts (self w)) /\
  (forall k c text sev w,
     last_alerts (self (snd (alert k c text sev w))) =
     last_alerts (self (snd (should_send_alert k c w)))) /\
  (forall k c text sev w url replies,
     last_alerts (self (snd (alert k c text sev (with_notifier url replies w)))) =
     last_alerts (self (snd (alert k c text sev w)))).
Proof.
  split; [|split; [|split; [|split]]].
  - intros k c w. rewrite should_send_alert_run.
    destruct (cooldown_elapsed k c w); [discriminate|reflexivity].
  - intros k c w k'. rewrite should_send_alert_run.
    destruct (cooldown_elapsed k c w); [|discriminate].
    intros _ Hne. cbn. apply lookup_insert_ne. congruence.
  - intros text sev w.
    destruct (send_slack_alert_last_alerts text sev w) as [Hok Hself].
    rewrite Hself. split; [exact Hok|reflexivity].
  - intros k c text sev w. apply alert_last_alerts.
  - intros k c text sev w url replies.
    rewrite !alert_last_alerts, !should_send_alert_run.
    assert (Hsame : cooldown_elapsed k c (with_notifier url replies w) =
                    cooldown_elapsed k c w).
    { unfold cooldown_elapsed. destruct c; reflexivity. }
    rewrite Hsame. destruct (cooldown_elapsed k c w); reflexivity.
Qed.

(** ** How the rules of a queue run *)

Lemma alert_outcome (k : string) (c : option Z) (text : message) (sev : severity)
    (w : World) :
  fst (alert k c text sev w) = Ok tt /\
  (cooldown_elapsed k c w = true -> notified text sev w (snd (alert k c text sev w))) /\
  (cooldown_elapsed k c w = false -> alert k c text sev w = (Ok tt, tick w)).
Proof.
  rewrite alert_run. destruct (cooldown_elapsed k c w).
  - destruct (send_slack_alert_run text sev (record_alert k (now w) (tick w)))
      as (w' & Hrun & _ & _ & _ & _ & _ & _ & d & Hd).
    rewrite Hrun. split; [reflexivity|]. split; [|discriminate].
    intros _. exists d. exact Hd.
  - split; [reflexivity|]. split; [discriminate|reflexivity].
Qed.

Lemma cooldown_elapsed_spec (k : string) (c : option Z) (w : World) :
  cooldown_elapsed k c w = true <->
  (last_alerts (self w) !! k = None \/
   exists t, last_alerts (self w) !! k = Some t /\
             (inject_Z (effective_cooldown (self w) c) <= now w - t)%Q).
Proof.
  unfold cooldown_elapsed.
  destruct (last_alerts (self w) !! k) as [t|].
  - rewrite negb_true_iff, Qlt_bool_ge. split.
    + intros H. right. exists t. split; [reflexivity|exact H].
    + intros [H | (t' & Ht' & H)]; [discriminate|].
      injection Ht' as <-. exact H.
  - split; [left; reflexivity|reflexivity].
Qed.

Lemma queue_backup_run (queue_name vhost messages : pyval) (thr cd : Z) (w : World) :
  queue_backup queue_name vhost messages thr cd w =
    match queue_backup_condition messages thr with
    | Ok true =>
        alert (alert_key (OnQueue QueueBackup (py_str queue_name))) (Some cd)
              (QueueBackupDetected queue_name messages thr vhost) critical w
    | Ok false => (Ok tt, w)
    | Raise e => (Raise e, w)
    end.
Proof.
  unfold queue_backup, bind, lift.
  destruct (queue_backup_condition messages thr) as [[|]|e]; reflexivity.
Qed.

Lemma unacknowledged_run (queue queue_name unacked : pyval) (cd : Z) (w : World) :
  dict_get queue "messages_unacknowledged" (PNum 0) = Ok unacked ->
  unacknowledged queue queue_name cd w =
    match unacked_condition unacked (max_unacknowledged_messages (thresholds (self w))) with
    | Ok true =>
        alert (alert_key (OnQueue Unacked (py_str queue_name))) (Some cd)
              (HighUnacknowledged queue_name unacked
                 (max_unacknowledged_messages (thresholds (self w)))) warning w
    | Ok false => (Ok tt, w)
    | Raise e => (Raise e, w)
    end.
Proof.
  intros Hget. unfold unacknowledged, bind, lift, get. rewrite Hget.
  destruct (unacked_condition _ _) as [[|]|e]; reflexivity.
Qed.

Lemma consumer_monitoring_run (queue queue_name messages consumers : pyval)
    (cd : Z) (w : World) :
  dict_get queue "consumers" (PNum 0) = Ok consumers ->
  consumer_monitoring queue queue_name messages cd w =
    match consumers_condition messages consumers
            (min_consumers_per_queue (thresholds (self w))) with
    | Ok true =>
        alert (alert_key (OnQueue NoConsumers (py_str queue_name))) (Some cd)
              (MissingConsumers queue_name messages consumers
                 (min_consumers_per_queue (thresholds (self w)))) warning w
    | Ok false => (Ok tt, w)
    | Raise e => (Raise e, w)
    end.
Proof.
  intros Hget. unfold consumer_monitoring, bind, lift, get. rewrite Hget.
  destruct (consumers_condition _ _ _) as [[|]|e]; reflexivity.
Qed.

Lemma processing_halt_run (queue queue_name messages publish_rate consume_rate : pyval)
    (cd : Z) (w : World) :
  queue_rates queue = Ok (publish_rate, consume_rate) ->
  processing_halt queue queue_name messages cd w =
    match processing_halt_condition messages publish_rate consume_rate
            (processing_halt_threshold (thresholds (self w))) with
    | Ok true =>
        alert (alert_key (OnQueue ProcessingHalt (py_str queue_name))) (Some cd)
              (ProcessingHalted queue_name messages publish_rate consume_rate) critical w
    | Ok false => (Ok tt, w)
    | Raise e => (Raise e, w)
    end.
Proof.
  intros Hget. unfold processing_halt, bind, lift, get. rewrite Hget. cbn [fst snd].
  destruct (processing_halt_condition _ _ _ _) as [[|]|e]; reflexivity.
Qed.

Lemma check_queue_run (queue queue_name vhost messages : pyval) (w : World) :
  dict_get queue "name" (PStr "unknown") = Ok queue_name ->
  dict_get queue "vhost" (PStr "/") = Ok vhost ->
  dict_get queue "messages" (PNum 0) = Ok messages ->
  check_queue queue w =
    (queue_backup queue_name vhost messages
       (fst (get_queue_config (self w) queue_name))
       (snd (get_queue_config (self w) queue_name)) >>
     unacknowledged queue queue_name (snd (get_queue_config (self w) queue_name)) >>
     consumer_monitoring queue queue_name messages
       (snd (get_queue_config (self w) queue_name)) >>
     processing_halt queue queue_name messages
       (snd (get_queue_config (self w) queue_name))) w.
Proof.
  intros Hn Hv Hm. unfold check_queue.
  unfold bind at 1, lift at 1. rewrite Hn.
  unfold bind at 1, lift at 1. rewrite Hv.
  unfold bind at 1, get at 1.
  unfold bind at 1, lift at 1. rewrite Hm.
  reflexivity.
Qed.

Lemma alert_alerts_at (w : World) (cd : Z) (k : string) (text : message) (sev : severity) :
  alerts_at w cd k text sev (alert k (Some cd) text sev).
Proof.
  split.
  - intros Helapsed.
    assert (H : cooldown_elapsed k (Some cd) w = true)
      by (apply cooldown_elapsed_spec; exact Helapsed).
    rewrite alert_run, H.
    destruct (send_slack_alert_run text sev (record_alert k (now w) (tick w)))
      as (w' & Hrun & Hself & _ & _ & _ & _ & _ & d & Hd).
    rewrite Hrun. cbn [fst snd]. split; [reflexivity|]. split.
    + exists d. exact Hd.
    + rewrite Hself. cbn. apply lookup_insert_eq.
  - intros t Hlast Hlt.
    rewrite alert_run. unfold cooldown_elapsed. rewrite Hlast.
    cbn [effective_cooldown].
    apply Qlt_bool_lt in Hlt. rewrite Hlt. reflexivity.
Qed.

Lemma py_gt_num (v : pyval) (m n : Q) :
  num_of v = Some m -> py_gt v n = Ok (Qlt_bool n m).
Proof. intros H. unfold py_gt. rewrite H. reflexivity. Qed.

Lemma get_queue_config_pair (s : RabbitMQMonitor) (queue_name : pyval) :
  get_queue_config s queue_name =
    (if py_in queue_name (long_job_queues s)
     then long_job_threshold s else max_queue_length (thresholds s),
     if py_in queue_name (long_job_queues s)
     then long_job_cooldown s else default_alert_cooldown s).
Proof.
  unfold get_queue_config. destruct (py_in queue_name (long_job_queues s)); reflexivity.
Qed.

(** C4.  The threshold and the cooldown of the queue backup rule come as a
    pair decided by one test: for a queue named in the override list the
    rule compares the messages with the override threshold and asks the
    tracker with the override cooldown; for any other queue it compares
    with the default threshold and asks with the default cooldown. *)
Theorem queue_backup_parameters_pair
    (queue queue_name vhost messages : pyval) (w : World) :
  let s := self w in
  let listed := py_in queue_name (long_job_queues s) in
  let thr := if listed then long_job_threshold s else max_queue_length (thresholds s) in
  let cd := if listed then long_job_cooldown s else default_alert_cooldown s in
  dict_get queue "name" (PStr "unknown") = Ok queue_name ->
  dict_get queue "vhost" (PStr "/") = Ok vhost ->
  dict_get queue "messages" (PNum 0) = Ok messages ->
  get_queue_config s queue_name = (thr, cd) /\
  check_queue queue w =
    (queue_backup queue_name vhost messages thr cd >>
     unacknowledged queue queue_name cd >>
     consumer_monitoring queue queue_name messages cd >>
     processing_halt queue queue_name messages cd) w /\
  (forall m, num_of messages = Some m -> (inject_Z thr < m)%Q ->
     alerts_at w cd (alert_key (OnQueue QueueBackup (py_str queue_name)))
       (QueueBackupDetected queue_name messages thr vhost) critical
       (queue_backup queue_name vhost messages thr cd)) /\
  (forall m, num_of messages = Some m -> (m <= inject_Z thr)%Q ->
     queue_backup queue_name vhost messages thr cd w = (Ok tt, w)).
Proof.
  intros s listed thr cd Hn Hv Hm.
  assert (Hcfg : get_queue_config s queue_name = (thr, cd))
    by apply get_queue_config_pair.
  split; [exact Hcfg|]. split; [|split].
  - rewrite (check_queue_run queue queue_name vhost messages w Hn Hv Hm).
    fold s. rewrite Hcfg. reflexivity.
  - intros m Hnum Hlt.
    assert (Heq : queue_backup queue_name vhost messages thr cd =
                  alert (alert_key (OnQueue QueueBackup (py_str queue_name))) (Some cd)
                    (QueueBackupDetected queue_name messages thr vhost) critical).
    { unfold queue_backup, queue_backup_condition.
      rewrite (py_gt_num messages m _ Hnum).
      apply Qlt_bool_lt in Hlt. rewrite Hlt. reflexivity. }
    rewrite Heq. apply alert_alerts_at.
  - intros m Hnum Hle. rewrite queue_backup_run. unfold queue_backup_condition.
    rewrite (py_gt_num messages m _ Hnum).
    apply Qlt_bool_ge in Hle. rewrite Hle. reflexivity.
Qed.


(** ** Processing halt *)


Lemma queue_rates_without_stats (entries : list (string * pyval)) :
  assoc "message_stats" entries = None ->
  queue_rates (PDict entries) = Ok (PNum 0, PNum 0).
Proof. intros H. unfold queue_rates. cbn. rewrite H. reflexivity. Qed.

Lemma processing_halt_without_stats (entries : list (string * pyval))
    (queue_name messages : pyval) (m : Q) (cd : Z) (w : World) :
  assoc "message_stats" entries = None ->
  num_of messages = Some m ->
  processing_halt (PDict entries) queue_name messages cd w = (Ok tt, w).
Proof.
  intros Hstats Hm.
  rewrite (processing_halt_run _ _ _ _ _ cd w (queue_rates_without_stats entries Hstats)).
  unfold processing_halt_condition, res_bind. rewrite (py_gt_num messages m _ Hm).
  destruct (Qlt_bool _ m); reflexivity.
Qed.


(** ** High memory *)

Lemma py_div_num (a b : pyval) (x y : Q) :
  num_of a = Some x -> num_of b = Some y -> ~ (y == 0)%Q ->
  py_div a b = Ok (x / y)%Q.
Proof.
  intros Ha Hb Hy. unfold py_div. rewrite Ha, Hb.
  destruct (Qeq_bool y 0) eqn:E; [|reflexivity].
  apply Qeq_bool_iff in E. contradiction.
Qed.

Lemma memory_percent_usable (mem_used mem_limit : pyval) (u l : Q) :
  num_of mem_used = Some u -> num_of mem_limit = Some l -> (0 < l)%Q ->
  memory_percent mem_used mem_limit = Ok (u / l * 100)%Q.
Proof.
  intros Hu Hl Hpos. unfold memory_percent, res_bind.
  rewrite (py_gt_num mem_limit l _ Hl).
  pose proof Hpos as Hb. apply Qlt_bool_lt in Hb. rewrite Hb.
  rewrite (py_div_num mem_used mem_limit u l Hu Hl); [reflexivity|].
  intros H. rewrite H in Hpos. exact (Qlt_irrefl 0 Hpos).
Qed.


Lemma format_grouped_num (v : pyval) (x : Q) : num_of v = Some x -> format_grouped v = Ok tt.
Proof. destruct v as [|[|]| | | |]; cbn; intros H; (discriminate || reflexivity). Qed.

Lemma memory_usage_run (node node_name mem_used mem_limit : pyval) (u : Q) (w : World) :
  dict_get node "mem_used" (PNum 0) = Ok mem_used ->
  dict_get node "mem_limit" (PNum 1) = Ok mem_limit ->
  num_of mem_used = Some u ->
  memory_usage node node_name w =
    match memory_percent mem_used mem_limit with
    | Ok mem_percent =>
        if Qlt_bool (inject_Z (max_memory_usage_percent (thresholds (self w)))) mem_percent
        then alert (alert_key (OnNode Memory (py_str node_name))) None
                   (HighMemoryUsage node_name mem_percent
                      (max_memory_usage_percent (thresholds (self w))) mem_used)
                   (memory_severity mem_percent) w
        else (Ok tt, w)
    | Raise e => (Raise e, w)
    end.
Proof.
  intros Hu Hl Hnu. unfold memory_usage, alert, bind, lift, get.
  rewrite Hu, Hl, (format_grouped_num mem_used u Hnu).
  destruct (memory_percent mem_used mem_limit) as [p|e]; [|reflexivity].
  destruct (Qlt_bool _ p); reflexivity.
Qed.




(** ** Connection failures *)

Lemma get_api_data_run (endpoint : string) (w : World) :
  get_api_data endpoint w =
    let w1 := set_requests (S (requests w)) w in
    match api w (requests w) with
    | RequestRaised e =>
        (Ok PNone, emit (ErrorFetching endpoint e) (add_connection_failure w1))
    | Response status body =>
        if Z.eqb status 200
        then match body with
             | Ok data => (Ok data, reset_connection_failures w1)
             | Raise e =>
                 (Ok PNone,
                  emit (ErrorFetching endpoint e)
                    (add_connection_failure (reset_connection_failures w1)))
             end
        else (Ok PNone, emit (ApiRequestFailed endpoint status) w1)
    end.
Proof.
  unfold get_api_data, try_except, bind, http_get, raise, modify, lift, ret.
  destruct (api w (requests w)) as [e|status body]; [reflexivity|].
  destruct (Z.eqb status 200); [|reflexivity].
  destruct body; reflexivity.
Qed.

Lemma check_connections_run (w : World) :
  check_connections w =
    if Z.leb (connection_failure_threshold (thresholds (self w)))
             (connection_failures (self w))
    then alert (alert_key Connectivity) None
               (ApiConnectionFailed (connection_failures (self w))) critical w
    else (Ok tt, w).
Proof.
  unfold check_connections, bind, get.
  destruct (Z.leb _ _); reflexivity.
Qed.

(** C3 (amended).  A fetch whose request raises (no connection, timeout)
    adds exactly one to the connection failure counter; a response with a
    status other than 200 leaves the counter as it was; a response with
    status 200 sets it to zero, and to one when decoding the body then
    raises.  The connectivity rule reaches the tracker exactly when the
    counter is at least the failure threshold (3 by default), and notifies
    when moreover the default cooldown of its key has elapsed. *)
Theorem connection_failure_counter (endpoint : string) (w : World) :
  let n := connection_failures (self w) in
  let r := get_api_data endpoint w in
  let n' := connection_failures (self (snd r)) in
  let threshold := connection_failure_threshold (thresholds (self w)) in
  let k := alert_key Connectivity in
  (forall e, api w (requests w) = RequestRaised e ->
     fst r = Ok PNone /\ n' = n + 1) /\
  (forall status body, api w (requests w) = Response status body -> status <> 200 ->
     fst r = Ok PNone /\ n' = n) /\
  (forall data, api w (requests w) = Response 200 (Ok data) ->
     fst r = Ok data /\ n' = 0) /\
  (forall e, api w (requests w) = Response 200 (Raise e) ->
     fst r = Ok PNone /\ n' = 1) /\
  connection_failure_threshold default_thresholds = 3 /\
  (n < threshold -> check_connections w = (Ok tt, w)) /\
  (threshold <= n ->
     check_connections w = alert k None (ApiConnectionFailed n) critical w /\
     alerts_at w (default_alert_cooldown (self w)) k (ApiConnectionFailed n) critical
       check_connections).
Proof.
  cbn zeta. rewrite get_api_data_run. cbn zeta.
  split; [|split; [|split; [|split; [|split; [|split]]]]].
  - intros e ->. cbn. split; reflexivity.
  - intros status body -> Hne.
    destruct (Z.eqb status 200) eqn:E.
    + apply Z.eqb_eq in E. contradiction.
    + cbn. split; reflexivity.
  - intros data ->. cbn. split; reflexivity.
  - intros e ->. cbn. split; reflexivity.
  - reflexivity.
  - intros Hlt. rewrite check_connections_run.
    destruct (Z.leb _ _) eqn:E; [|reflexivity].
    apply Z.leb_le in E. lia.
  - intros Hle.
    assert (Heq : forall w', check_connections w' =
              if Z.leb (connection_failure_threshold (thresholds (self w')))
                       (connection_failures (self w'))
              then alert (alert_key Connectivity) None
                     (ApiConnectionFailed (connection_failures (self w'))) critical w'
              else (Ok tt, w')) by apply check_connections_run.
    apply Z.leb_le in Hle.
    split.
    + rewrite Heq, Hle. reflexivity.
    + split.
      * intros He. rewrite Heq, Hle.
        assert (H : cooldown_elapsed (alert_key Connectivity) None w = true)
          by (apply cooldown_elapsed_spec; exact He).
        pose proof (alert_outcome (alert_key Connectivity) None
                      (ApiConnectionFailed (connection_failures (self w))) critical w)
          as (Hok & Hnot & _).
        split; [exact Hok|]. split; [apply Hnot; exact H|].
        rewrite alert_last_alerts, should_send_alert_run, H. cbn.
        apply lookup_insert_eq.
      * intros t Ht Hlt. rewrite Heq, Hle.
        pose proof (alert_outcome (alert_key Connectivity) None
                      (ApiConnectionFailed (connection_failures (self w))) critical w)
          as (_ & _ & Hquiet).
        apply Hquiet. unfold cooldown_elapsed. rewrite Ht. cbn [effective_cooldown].
        apply Qlt_bool_lt in Hlt. rewrite Hlt. reflexivity.
Qed.

(** ** What the code may change *)

Section Changes.

Variable K : string -> Prop.
Variable P : event -> Prop.

Lemma changes_refl (w : World) : changes K P w w.
Proof.
  split; [reflexivity|]. exists []. split; [|constructor].
  symmetry. apply app_nil_r.
Qed.

Lemma changes_trans (a b c : World) : changes K P a b -> changes K P b c -> changes K P a c.
Proof.
  intros [Hk1 (e1 & Ht1 & Hp1)] [Hk2 (e2 & Ht2 & Hp2)]. split.
  - intros k Hk. rewrite (Hk2 k Hk). apply Hk1. exact Hk.
  - exists (e1 ++ e2)%list. split.
    + rewrite Ht2, Ht1. symmetry. apply app_assoc.
    + apply Forall_app. split; assumption.
Qed.

Lemma changes_quiet (w w' : World) :
  last_alerts (self w') = last_alerts (self w) -> trace w' = trace w -> changes K P w w'.
Proof.
  intros Hl Ht. split.
  - intros k _. rewrite Hl. reflexivity.
  - exists []. split; [|constructor]. rewrite Ht. symmetry. apply app_nil_r.
Qed.

Lemma changes_emit (ev : event) (w : World) : P ev -> changes K P w (emit ev w).
Proof.
  intros Hp. split; [reflexivity|]. exists [ev]. split; [reflexivity|].
  constructor; [exact Hp|constructor].
Qed.

Lemma changes_record (k : string) (t : Q) (w : World) :
  K k -> changes K P w (record_alert k t w).
Proof.
  intros Hk. split.
  - intros k' Hk'. cbn. apply lookup_insert_ne. intros ->. contradiction.
  - exists []. split; [|constructor]. cbn. symmetry. apply app_nil_r.
Qed.

Lemma keeps_ret {A} (a : A) : keeps K P (ret a).
Proof. intros w. apply changes_refl. Qed.

Lemma keeps_get {A} (f : World -> A) : keeps K P (get f).
Proof. intros w. apply changes_refl. Qed.

Lemma keeps_bind {A B} (m : M A) (k : A -> M B) :
  keeps K P m -> (forall a, keeps K P (k a)) -> keeps K P (bind m k).
Proof.
  intros Hm Hk w. unfold bind. specialize (Hm w).
  destruct (m w) as [[a|e] w1]; cbn [snd] in *.
  - apply (changes_trans w w1); [exact Hm|apply Hk].
  - exact Hm.
Qed.

Lemma keeps_for_each {A} (items : list A) (body : A -> M unit) :
  (forall x, keeps K P (body x)) -> keeps K P (for_each items body).
Proof.
  intros Hb. induction items as [|x rest IH]; cbn [for_each].
  - apply keeps_ret.
  - apply keeps_bind; [apply Hb|intros _; exact IH].
Qed.

Lemma keeps_gather (tasks : list (M unit)) :
  Forall (keeps K P) tasks -> keeps K P (gather tasks).
Proof.
  induction 1 as [|task rest Ht _ IH]; cbn [gather].
  - apply keeps_ret.
  - intros w. specialize (Ht w).
    destruct (task w) as [[a|e] w1]; cbn [snd] in *.
    + apply (changes_trans w w1); [exact Ht|apply IH].
    + apply (changes_trans w w1); [exact Ht|apply IH].
Qed.

Lemma keeps_should_send_alert (k : string) (c : option Z) :
  K k -> keeps K P (should_send_alert k c).
Proof.
  intros Hk w. rewrite should_send_alert_run.
  destruct (cooldown_elapsed k c w); cbn [snd].
  - apply (changes_trans w (tick w)); [apply changes_quiet; reflexivity|].
    apply changes_record. exact Hk.
  - apply changes_quiet; reflexivity.
Qed.

Lemma keeps_send_slack_alert (text : message) (sev : severity) :
  (forall d, P (SendSlackAlert text sev d)) -> keeps K P (send_slack_alert text sev).
Proof.
  intros Hp w.
  destruct (send_slack_alert_run text sev w) as (w' & Hrun & Hself & _ & _ & _ & _ & _ & d & Hd).
  rewrite Hrun. cbn [snd]. split.
  - intros k _. rewrite Hself. reflexivity.
  - exists [SendSlackAlert text sev d]. split; [exact Hd|].
    constructor; [apply Hp|constructor].
Qed.

Lemma keeps_alert (k : string) (c : option Z) (text : message) (sev : severity) :
  K k -> (forall d, P (SendSlackAlert text sev d)) -> keeps K P (alert k c text sev).
Proof.
  intros Hk Hp. unfold alert. apply keeps_bind.
  - apply keeps_should_send_alert. exact Hk.
  - intros [|]; [apply keeps_send_slack_alert; exact Hp|apply keeps_ret].
Qed.

Lemma keeps_get_api_data (endpoint : string) :
  (forall status, P (ApiRequestFailed endpoint status)) ->
  (forall e, P (ErrorFetching endpoint e)) ->
  keeps K P (get_api_data endpoint).
Proof.
  intros Hs He w. rewrite get_api_data_run. cbn zeta.
  destruct (api w (requests w)) as [e|status body].
  - cbn [snd].
    apply (changes_trans w (add_connection_failure (set_requests (S (requests w)) w)));
      [apply changes_quiet; reflexivity|apply changes_emit; apply He].
  - destruct (Z.eqb status 200).
    + destruct body as [data|e]; cbn [snd].
      * apply changes_quiet; reflexivity.
      * apply (changes_trans w (add_connection_failure
                 (reset_connection_failures (set_requests (S (requests w)) w))));
          [apply changes_quiet; reflexivity|apply changes_emit; apply He].
    + cbn [snd].
      apply (changes_trans w (set_requests (S (requests w)) w));
        [apply changes_quiet; reflexivity|apply changes_emit; apply Hs].
Qed.

End Changes.

Lemma keeps_bind_lift {A B} (K : string -> Prop) (P : event -> Prop)
    (r : Res A) (k : A -> M B) :
  (forall a, r = Ok a -> keeps K P (k a)) -> keeps K P (bind (lift r) k).
Proof.
  intros H w. unfold bind, lift. destruct r as [a|e].
  - apply (H a). reflexivity.
  - apply changes_refl.
Qed.

Ltac keeps_step :=
  match goal with
  | |- keeps _ _ (bind (lift _) _) => apply keeps_bind_lift; intros ? ?
  | |- keeps _ _ (bind _ _) => apply keeps_bind; [|intros ?]
  | |- keeps _ _ (ret _) => apply keeps_ret
  | |- keeps _ _ (get _) => apply keeps_get
  | |- keeps _ _ (if ?b then _ else _) => destruct b
  | |- keeps _ _ (alert _ _ _ _) => apply keeps_alert
  | |- keeps _ _ (should_send_alert _ _) => apply keeps_should_send_alert
  | |- keeps _ _ (send_slack_alert _ _) => apply keeps_send_slack_alert
  end.

Lemma keeps_check_queue (K : string -> Prop) (P : event -> Prop) (queue : pyval) :
  (forall r k, queue_alert_key r queue = Ok k -> K k) ->
  (forall ev, from_check ev -> P ev) ->
  keeps K P (check_queue queue).
Proof.
  intros HK HP. unfold check_queue.
  apply keeps_bind_lift. intros queue_name Hname.
  assert (Hkey : forall r, K (alert_key (OnQueue r (py_str queue_name)))).
  { intros r. apply (HK r). unfold queue_alert_key. rewrite Hname. reflexivity. }
  unfold queue_backup, unacknowledged, consumer_monitoring, processing_halt.
  repeat keeps_step; try apply Hkey; intros; apply HP; exact I.
Qed.

Lemma keeps_check_node (K : string -> Prop) (P : event -> Prop) (node : pyval) :
  (forall r k, node_alert_key r node = Ok k -> K k) ->
  (forall ev, from_check ev -> P ev) ->
  keeps K P (check_node node).
Proof.
  intros HK HP. unfold check_node.
  apply keeps_bind_lift. intros node_name Hname.
  assert (Hkey : forall r, K (alert_key (OnNode r (py_str node_name)))).
  { intros r. apply (HK r). unfold node_alert_key. rewrite Hname. reflexivity. }
  unfold memory_usage, disk_usage, node_status.
  repeat keeps_step; try apply Hkey; intros; apply HP; exact I.
Qed.

Lemma keeps_check_queue_health : keeps (fun _ => True) from_check check_queue_health.
Proof.
  unfold check_queue_health. apply keeps_bind.
  - apply keeps_get_api_data; intros; exact I.
  - intros queues. repeat keeps_step.
    apply keeps_for_each. intros queue.
    apply keeps_check_queue; [intros; exact I|intros ev Hev; exact Hev].
Qed.

Lemma keeps_check_node_health : keeps (fun _ => True) from_check check_node_health.
Proof.
  unfold check_node_health. apply keeps_bind.
  - apply keeps_get_api_data; intros; exact I.
  - intros nodes. repeat keeps_step.
    apply keeps_for_each. intros node.
    apply keeps_check_node; [intros; exact I|intros ev Hev; exact Hev].
Qed.

Lemma keeps_check_connections : keeps (fun _ => True) from_check check_connections.
Proof.
  unfold check_connections. repeat keeps_step; try exact I. intros; exact I.
Qed.

(** ** The cycle boundary *)

Lemma new_events_app (w w' : World) (evs : list event) :
  trace w' = (trace w ++ evs)%list -> new_events w w' = evs.
Proof. intros H. unfold new_events. rewrite H. apply drop_app_length. Qed.

Lemma count_app (f : event -> bool) (a b : list event) :
  count f (a ++ b) = (count f a + count f b)%nat.
Proof. unfold count. rewrite filter_app, length_app. reflexivity. Qed.

Lemma count_cons (f : event -> bool) (ev : event) (evs : list event) :
  count f (ev :: evs) = ((if f ev then 1 else 0) + count f evs)%nat.
Proof.
  unfold count. rewrite filter_cons.
  destruct (f ev); case_decide; try congruence; reflexivity.
Qed.


Lemma run_health_check_run (w : World) :
  run_health_check w =
    match gather [check_queue_health; check_node_health; check_connections]
            (emit RunningHealthChecks w) with
    | (Ok _, w1) => (Ok tt, emit HealthCheckCompleted w1)
    | (Raise e, w1) =>
        send_slack_alert (MonitoringError e) critical (emit (ErrorDuringHealthChecks e) w1)
    end.
Proof.
  unfold run_health_check, try_except, bind, modify.
  destruct (gather _ _) as [[[]|e] w1]; reflexivity.
Qed.

Lemma keeps_checks :
  keeps (fun _ => True) from_check
    (gather [check_queue_health; check_node_health; check_connections]).
Proof.
  apply keeps_gather.
  apply Forall_cons_2; [apply keeps_check_queue_health|].
  apply Forall_cons_2; [apply keeps_check_node_health|].
  apply Forall_cons_2; [apply keeps_check_connections|].
  apply Forall_nil_2.
Qed.

Lemma run_health_check_trace (w : World) :
  fst (run_health_check w) = Ok tt /\
  exists evs,
    Forall from_check evs /\
    match fst (gather [check_queue_health; check_node_health; check_connections]
                 (emit RunningHealthChecks w)) with
    | Ok _ =>
        trace (snd (run_health_check w)) =
          (trace w ++ RunningHealthChecks :: evs ++ [HealthCheckCompleted])%list
    | Raise e =>
        exists d,
          trace (snd (run_health_check w)) =
            (trace w ++ RunningHealthChecks :: evs ++
               [ErrorDuringHealthChecks e;
                SendSlackAlert (MonitoringError e) critical d])%list
    end.
Proof.
  rewrite run_health_check_run.
  destruct (keeps_checks (emit RunningHealthChecks w)) as [_ (evs & Ht & Hp)].
  destruct (gather _ _) as [[[]|e] w1]; cbn [fst snd] in *.
  - split; [reflexivity|]. exists evs. split; [exact Hp|].
    cbn. rewrite Ht. cbn. rewrite <- !app_assoc. reflexivity.
  - destruct (send_slack_alert_run (MonitoringError e) critical
                (emit (ErrorDuringHealthChecks e) w1))
      as (w2 & Hrun & _ & _ & _ & _ & _ & _ & d & Hd).
    rewrite Hrun. cbn [fst snd]. split; [reflexivity|].
    exists evs. split; [exact Hp|]. exists d.
    rewrite Hd. cbn. rewrite Ht. cbn. rewrite <- !app_assoc. reflexivity.
Qed.




(** ** Alert keys *)

Lemma alert_key_inj (a b : alert_source) : alert_key a = alert_key b -> a = b.
Proof.
  destruct a as [[] n1|[] n1|]; destruct b as [[] n2|[] n2|];
    intros H; cbv [alert_key String.append] in H; congruence.
Qed.

(** C2 (amended).  The alert key is a function of the rule and of the name
    of the entity alone: two sources get the same key exactly when they
    are the same rule on the same name, two snapshots with the same name
    get the same key for a rule whatever their other fields (the vhost of
    a queue among them), and in any world the checks of a queue or of a
    node write the cooldown map under these keys only. *)
Theorem alert_key_by_rule_and_name :
  (forall a b, alert_key a = alert_key b <-> a = b) /\
  (forall r q1 q2,
     dict_get q1 "name" (PStr "unknown") = dict_get q2 "name" (PStr "unknown") ->
     queue_alert_key r q1 = queue_alert_key r q2) /\
  (forall r n1 n2,
     dict_get n1 "name" (PStr "unknown") = dict_get n2 "name" (PStr "unknown") ->
     node_alert_key r n1 = node_alert_key r n2) /\
  (forall queue w k,
     (forall r, queue_alert_key r queue <> Ok k) ->
     last_alerts (self (snd (check_queue queue w))) !! k = last_alerts (self w) !! k) /\
  (forall node w k,
     (forall r, node_alert_key r node <> Ok k) ->
     last_alerts (self (snd (check_node node w))) !! k = last_alerts (self w) !! k).
Proof.
  split; [|split; [|split; [|split]]].
  - intros a b. split; [apply alert_key_inj|intros ->; reflexivity].
  - intros r q1 q2 H. unfold queue_alert_key. rewrite H. reflexivity.
  - intros r n1 n2 H. unfold node_alert_key. rewrite H. reflexivity.
  - intros queue w k Hk.
    pose proof (keeps_check_queue (fun k' => exists r, queue_alert_key r queue = Ok k')
                  (fun _ => True) queue) as Hkeeps.
    destruct (Hkeeps (fun r k' H => ex_intro _ r H) (fun _ _ => I) w) as [Hframe _].
    apply Hframe. intros [r Hr]. exact (Hk r Hr).
  - intros node w k Hk.
    pose proof (keeps_check_node (fun k' => exists r, node_alert_key r node = Ok k')
                  (fun _ => True) node) as Hkeeps.
    destruct (Hkeeps (fun r k' H => ex_intro _ r H) (fun _ _ => I) w) as [Hframe _].
    apply Hframe. intros [r Hr]. exact (Hk r Hr).
Qed.

(** ** Relations every run of the monitor follows *)

Section Steps.

Variable R : World -> World -> Prop.
Hypothesis R_refl : forall w, R w w.
Hypothesis R_trans : forall a b c, R a b -> R b c -> R a c.
Hypothesis R_check : forall k c, follows R (should_send_alert k c).
Hypothesis R_send : forall text sev, follows R (send_slack_alert text sev).
Hypothesis R_fetch : forall endpoint, follows R (get_api_data endpoint).
Hypothesis R_log : forall ev w, scheduler_event ev -> R w (emit ev w).

Lemma follows_ret {A} (a : A) : follows R (ret a).
Proof. intros w. apply R_refl. Qed.

Lemma follows_get {A} (f : World -> A) : follows R (get f).
Proof. intros w. apply R_refl. Qed.

Lemma follows_lift {A} (r : Res A) : follows R (lift r).
Proof. intros w. apply R_refl. Qed.

Lemma follows_bind {A B} (m : M A) (k : A -> M B) :
  follows R m -> (forall a, follows R (k a)) -> follows R (bind m k).
Proof.
  intros Hm Hk w. unfold bind. specialize (Hm w).
  destruct (m w) as [[a|e] w1]; cbn [snd] in *.
  - apply (R_trans w w1); [exact Hm|apply Hk].
  - exact Hm.
Qed.

Lemma follows_for_each {A} (items : list A) (body : A -> M unit) :
  (forall x, follows R (body x)) -> follows R (for_each items body).
Proof.
  intros Hb. induction items as [|x rest IH]; cbn [for_each].
  - apply follows_ret.
  - apply follows_bind; [apply Hb|intros _; exact IH].
Qed.

Lemma follows_gather (tasks : list (M unit)) :
  Forall (follows R) tasks -> follows R (gather tasks).
Proof.
  induction 1 as [|task rest Ht _ IH]; cbn [gather].
  - apply follows_ret.
  - intros w. specialize (Ht w).
    destruct (task w) as [[a|e] w1]; cbn [snd] in *;
      apply (R_trans w w1); solve [exact Ht|apply IH].
Qed.

Lemma follows_emit (ev : event) : scheduler_event ev -> follows R (modify (emit ev)).
Proof. intros Hev w. apply R_log. exact Hev. Qed.

Ltac follows_step :=
  match goal with
  | |- follows _ (bind _ _) => apply follows_bind; [|intros ?]
  | |- follows _ (ret _) => apply follows_ret
  | |- follows _ (get _) => apply follows_get
  | |- follows _ (lift _) => apply follows_lift
  | |- follows _ (if ?b then _ else _) => destruct b
  | |- follows _ (should_send_alert _ _) => apply R_check
  | |- follows _ (send_slack_alert _ _) => apply R_send
  | |- follows _ (get_api_data _) => apply R_fetch
  | |- follows _ (modify (emit _)) => apply follows_emit; exact I
  end.

Lemma follows_check_queue (queue : pyval) : follows R (check_queue queue).
Proof.
  unfold check_queue, queue_backup, unacknowledged, consumer_monitoring,
    processing_halt, alert.
  repeat follows_step.
Qed.

Lemma follows_check_node (node : pyval) : follows R (check_node node).
Proof.
  unfold check_node, memory_usage, disk_usage, node_status, alert.
  repeat follows_step.
Qed.

Lemma follows_check_connections : follows R check_connections.
Proof. unfold check_connections, alert. repeat follows_step. Qed.

Lemma follows_check_queue_health : follows R check_queue_health.
Proof.
  unfold check_queue_health. repeat follows_step.
  apply follows_for_each. apply follows_check_queue.
Qed.

Lemma follows_check_node_health : follows R check_node_health.
Proof.
  unfold check_node_health. repeat follows_step.
  apply follows_for_each. apply follows_check_node.
Qed.

Lemma follows_run_health_check : follows R run_health_check.
Proof.
  intros w. rewrite run_health_check_run.
  assert (Hg : follows R (gather [check_queue_health; check_node_health; check_connections])).
  { apply follows_gather.
    apply Forall_cons_2; [apply follows_check_queue_health|].
    apply Forall_cons_2; [apply follows_check_node_health|].
    apply Forall_cons_2; [apply follows_check_connections|].
    apply Forall_nil_2. }
  specialize (Hg (emit RunningHealthChecks w)).
  assert (H0 : R w (emit RunningHealthChecks w)) by (apply R_log; exact I).
  destruct (gather _ _) as [[[]|e] w1]; cbn [snd] in *.
  - apply (R_trans _ _ _ H0). apply (R_trans _ _ _ Hg). apply R_log. exact I.
  - apply (R_trans _ _ _ H0). apply (R_trans _ _ _ Hg).
    apply (R_trans _ (emit (ErrorDuringHealthChecks e) w1)); [apply R_log; exact I|].
    apply R_send.
Qed.

Lemma follows_monitoring_loop (n : nat) (interval : Z) :
  follows R (monitoring_loop n interval).
Proof.
  induction n as [|n IH]; cbn [monitoring_loop].
  - apply follows_ret.
  - apply follows_bind; [apply follows_run_health_check|intros _].
    apply follows_bind; [apply follows_emit; exact I|intros _; exact IH].
Qed.

Lemma follows_start_monitoring (n : nat) (interval : Z) :
  follows R (start_monitoring n interval).
Proof.
  unfold start_monitoring. repeat follows_step. apply follows_monitoring_loop.
Qed.

End Steps.

(** ** Settings *)

Lemma same_setting_refl (w : World) : same_setting w w.
Proof. repeat split. Qed.

Lemma same_setting_trans (a b c : World) :
  same_setting a b -> same_setting b c -> same_setting a c.
Proof.
  unfold same_setting. intros H1 H2.
  destruct H1 as (? & ? & ? & ? & ? & ? & ? & ? & ?).
  destruct H2 as (? & ? & ? & ? & ? & ? & ? & ? & ?).
  repeat split; congruence.
Qed.

Lemma same_setting_check (k : string) (c : option Z) :
  follows same_setting (should_send_alert k c).
Proof.
  intros w. rewrite should_send_alert_run.
  destruct (cooldown_elapsed k c w); repeat split.
Qed.

Lemma same_setting_send (text : message) (sev : severity) :
  follows same_setting (send_slack_alert text sev).
Proof.
  intros w.
  destruct (send_slack_alert_run text sev w)
    as (w' & Hrun & Hself & Hclock & Hapi & _ & Hslack & _).
  rewrite Hrun. cbn [snd]. unfold same_setting. rewrite Hself.
  repeat split; assumption.
Qed.

Lemma same_setting_fetch (endpoint : string) :
  follows same_setting (get_api_data endpoint).
Proof.
  intros w. rewrite get_api_data_run. cbn zeta.
  destruct (api w (requests w)) as [e|status body]; [repeat split|].
  destruct (Z.eqb status 200); [|repeat split].
  destruct body; repeat split.
Qed.

(** X1.  No run of the monitor, a cycle or any number of rounds of the
    scheduling loop, changes a setting (webhook address, thresholds,
    override list, override threshold and cooldown, default cooldown). *)
Theorem monitoring_keeps_setting (n : nat) (interval : Z) (w : World) :
  same_setting w (snd (run_health_check w)) /\
  same_setting w (snd (start_monitoring n interval w)).
Proof.
  split.
  - apply follows_run_health_check;
      first [exact same_setting_refl | exact same_setting_trans | exact same_setting_check
            | exact same_setting_send | exact same_setting_fetch
            | intros ev w' _; repeat split].
  - apply follows_start_monitoring;
      first [exact same_setting_refl | exact same_setting_trans | exact same_setting_check
            | exact same_setting_send | exact same_setting_fetch
            | intros ev w' _; repeat split].
Qed.

(** ** Requests and the failure counter *)

Lemma api_untouched_refl (w : World) : api_untouched w w.
Proof. split; reflexivity. Qed.

Lemma api_untouched_trans (a b c : World) :
  api_untouched a b -> api_untouched b c -> api_untouched a c.
Proof. unfold api_untouched. intros [? ?] [? ?]. split; congruence. Qed.

Lemma api_untouched_check (k : string) (c : option Z) :
  follows api_untouched (should_send_alert k c).
Proof.
  intros w. rewrite should_send_alert_run.
  destruct (cooldown_elapsed k c w); split; reflexivity.
Qed.

Lemma api_untouched_send (text : message) (sev : severity) :
  follows api_untouched (send_slack_alert text sev).
Proof.
  intros w.
  destruct (send_slack_alert_run text sev w) as (w' & Hrun & Hself & _ & _ & Hreq & _).
  rewrite Hrun. cbn [snd]. split; [exact Hreq|rewrite Hself; reflexivity].
Qed.

Lemma counter_bounded_refl (w : World) : counter_bounded w w.
Proof. intros H. split; [exact H|lia]. Qed.

Lemma counter_bounded_trans (a b c : World) :
  counter_bounded a b -> counter_bounded b c -> counter_bounded a c.
Proof.
  unfold counter_bounded. intros H1 H2 Ha.
  destruct (H1 Ha) as [Hb Hab]. destruct (H2 Hb) as [Hc Hbc]. split; [exact Hc|lia].
Qed.

Lemma counter_bounded_untouched (w w' : World) : api_untouched w w' -> counter_bounded w w'.
Proof. intros [Hr Hc] H. rewrite Hr, Hc. split; [exact H|lia]. Qed.

Lemma fetch_requests (endpoint : string) (w : World) :
  requests (snd (get_api_data endpoint w)) = S (requests w).
Proof.
  rewrite get_api_data_run. cbn zeta.
  destruct (api w (requests w)) as [e|status body]; [reflexivity|].
  destruct (Z.eqb status 200); [|reflexivity].
  destruct body; reflexivity.
Qed.

Lemma counter_bounded_fetch (endpoint : string) :
  follows counter_bounded (get_api_data endpoint).
Proof.
  intros w H0. rewrite get_api_data_run. cbn zeta.
  destruct (api w (requests w)) as [e|status body]; [cbn; lia|].
  destruct (Z.eqb status 200); [|cbn; lia].
  destruct body; cbn; lia.
Qed.

Lemma fetch_then_rules_requests (endpoint : string) (k : pyval -> M unit) (w : World) :
  (forall v, follows api_untouched (k v)) ->
  requests (snd (bind (get_api_data endpoint) k w)) = S (requests w).
Proof.
  intros Hk. unfold bind.
  pose proof (fetch_requests endpoint w) as Hf.
  destruct (get_api_data endpoint w) as [[v|e] w1]; cbn [snd] in *; [|exact Hf].
  destruct (Hk v w1) as [Hr _]. rewrite Hr. exact Hf.
Qed.

Ltac api_steps :=
  solve [exact api_untouched_refl | exact api_untouched_trans
        | exact api_untouched_check | exact api_untouched_send].

Lemma check_queue_health_requests (w : World) :
  requests (snd (check_queue_health w)) = S (requests w).
Proof.
  apply fetch_then_rules_requests. intros queues.
  destruct (negb (truthy queues)); [intros w'; apply api_untouched_refl|].
  apply follows_bind; try api_steps.
  intros items. apply follows_for_each; try api_steps.
  intros queue. apply follows_check_queue; api_steps.
Qed.

Lemma check_node_health_requests (w : World) :
  requests (snd (check_node_health w)) = S (requests w).
Proof.
  apply fetch_then_rules_requests. intros nodes.
  destruct (negb (truthy nodes)); [intros w'; apply api_untouched_refl|].
  apply follows_bind; try api_steps.
  intros items. apply follows_for_each; try api_steps.
  intros node. apply follows_check_node; api_steps.
Qed.

Lemma run_health_check_requests (w : World) :
  requests (snd (run_health_check w)) = S (S (requests w)).
Proof.
  rewrite run_health_check_run. cbn [gather]. unfold ret.
  pose proof (check_queue_health_requests (emit RunningHealthChecks w)) as H1.
  destruct (check_queue_health (emit RunningHealthChecks w)) as [r1 w1]; cbn [snd] in H1.
  pose proof (check_node_health_requests w1) as H2.
  destruct (check_node_health w1) as [r2 w2]; cbn [snd] in H2.
  assert (Hc : follows api_untouched check_connections)
    by (apply follows_check_connections; api_steps).
  destruct (Hc w2) as [H3 _].
  destruct (check_connections w2) as [r3 w3]; cbn [snd] in H3.
  assert (Hsend : forall e w',
            requests (snd (send_slack_alert (MonitoringError e) critical
                             (emit (ErrorDuringHealthChecks e) w'))) = requests w').
  { intros e w'.
    destruct (api_untouched_send (MonitoringError e) critical
                (emit (ErrorDuringHealthChecks e) w')) as [Hr _].
    exact Hr. }
  cbn in H1.
  destruct r1 as [[]|e1], r2 as [[]|e2], r3 as [[]|e3]; cbn [snd];
    rewrite ?Hsend; cbn; congruence.
Qed.

Lemma monitoring_loop_requests (n : nat) (interval : Z) :
  forall w, requests (snd (monitoring_loop n interval w)) = (requests w + 2 * n)%nat.
Proof.
  induction n as [|n IH]; intros w.
  - cbn. lia.
  - cbn [monitoring_loop]. unfold bind, modify.
    pose proof (run_health_check_requests w) as H.
    pose proof (proj1 (run_health_check_trace w)) as Hok.
    destruct (run_health_check w) as [[[]|e] w1]; cbn [fst snd] in *; [|discriminate].
    rewrite IH. cbn. lia.
Qed.

Lemma counter_bounded_run (n : nat) (interval : Z) :
  follows counter_bounded (start_monitoring n interval).
Proof.
  apply follows_start_monitoring;
    first [exact counter_bounded_refl | exact counter_bounded_trans
          | exact counter_bounded_fetch
          | intros; intros w; apply counter_bounded_untouched;
            first [apply api_untouched_check | apply api_untouched_send]
          | intros ev w _; apply counter_bounded_untouched; split; reflexivity].
Qed.

(** X2.  Every cycle makes exactly two requests to the management API,
    whatever they answer and whatever the checks raise; a failure counter
    that starts at or above zero stays there and rises by at most one per
    request, hence by at most two per cycle. *)
Theorem connection_failures_bounded (n : nat) (interval : Z) (w : World) :
  let w' := snd (start_monitoring n interval w) in
  requests (snd (run_health_check w)) = (requests w + 2)%nat /\
  requests w' = (requests w + 2 * n)%nat /\
  (0 <= connection_failures (self w) ->
   0 <= connection_failures (self w') <=
     connection_failures (self w) + 2 * Z.of_nat n).
Proof.
  cbn zeta.
  assert (Hreq : requests (snd (start_monitoring n interval w)) = (requests w + 2 * n)%nat).
  { unfold start_monitoring, bind, modify.
    destruct (send_slack_alert_run (MonitoringStarted interval) info
                (emit (StartingMonitoring interval) w))
      as (w1 & Hrun & _ & _ & _ & Hr & _).
    rewrite Hrun, monitoring_loop_requests, Hr. reflexivity. }
  split; [rewrite run_health_check_requests; lia|]. split; [exact Hreq|].
  intros H0.
  destruct (counter_bounded_run n interval w H0) as [Hpos Hle].
  rewrite Hreq in Hle. split; [exact Hpos|lia].
Qed.

(** ** Recorded times *)

Lemma records_kept_same_map (w w' : World) :
  last_alerts (self w') = last_alerts (self w) ->
  clock w' = clock w -> (ticks w <= ticks w')%nat ->
  records_kept w w'.
Proof.
  intros Hmap Hclock Hticks. unfold records_kept, records_are_readings.
  rewrite Hmap, Hclock. repeat split; try assumption.
  - intros k H. exact H.
  - intros Hr k t Hk. destruct (Hr k t Hk) as (i & Hi & Ht).
    exists i. split; [lia|exact Ht].
  - intros _ _ k t t' Ht Ht'. rewrite Ht in Ht'. injection Ht' as <-. apply Qle_refl.
Qed.

Lemma records_kept_refl (w : World) : records_kept w w.
Proof. apply records_kept_same_map; [reflexivity|reflexivity|lia]. Qed.

Lemma records_kept_trans (a b c : World) :
  records_kept a b -> records_kept b c -> records_kept a c.
Proof.
  intros (Hc1 & Ht1 & Hs1 & Hr1 & Hm1) (Hc2 & Ht2 & Hs2 & Hr2 & Hm2).
  unfold records_kept. repeat split.
  - congruence.
  - lia.
  - intros k Hk. apply Hs2, Hs1, Hk.
  - intros Hr. apply Hr2, Hr1, Hr.
  - intros Hmono Hr k t t'' Ht Ht''.
    destruct (Hs1 k (ex_intro _ t Ht)) as [t' Ht'].
    apply (Qle_trans _ t').
    + apply (Hm1 Hmono Hr k t t' Ht Ht').
    + rewrite <- Hc1 in Hmono. apply (Hm2 Hmono (Hr1 Hr) k t' t'' Ht' Ht'').
Qed.

Lemma records_kept_check (k : string) (c : option Z) :
  follows records_kept (should_send_alert k c).
Proof.
  intros w. rewrite should_send_alert_run.
  destruct (cooldown_elapsed k c w); cbn [snd];
    [|apply records_kept_same_map; [reflexivity|reflexivity|cbn; lia]].
  unfold records_kept, records_are_readings. cbn.
  split; [reflexivity|]. split; [lia|]. split; [|split].
  - intros k' Hk'. destruct (decide (k = k')) as [->|Hne].
    + rewrite lookup_insert_eq. eauto.
    + rewrite lookup_insert_ne by exact Hne. exact Hk'.
  - intros Hr k' t. destruct (decide (k = k')) as [->|Hne].
    + rewrite lookup_insert_eq. intros [= <-]. exists (ticks w). split; [lia|reflexivity].
    + rewrite lookup_insert_ne by exact Hne. intros Hk'.
      destruct (Hr k' t Hk') as (i & Hi & Ht). exists i. split; [lia|exact Ht].
  - intros Hmono Hr k' t t' Ht. destruct (decide (k = k')) as [->|Hne].
    + rewrite lookup_insert_eq. intros [= <-].
      destruct (Hr k' t Ht) as (i & Hi & ->). apply Hmono. lia.
    + rewrite lookup_insert_ne by exact Hne. intros Ht'.
      rewrite Ht in Ht'. injection Ht' as <-. apply Qle_refl.
Qed.

Lemma records_kept_send (text : message) (sev : severity) :
  follows records_kept (send_slack_alert text sev).
Proof.
  intros w.
  destruct (send_slack_alert_run text sev w) as (w' & Hrun & Hself & Hclock & _ & _ & _ & Ht & _).
  rewrite Hrun. cbn [snd].
  apply records_kept_same_map; [rewrite Hself; reflexivity|exact Hclock|exact Ht].
Qed.

Lemma records_kept_fetch (endpoint : string) :
  follows records_kept (get_api_data endpoint).
Proof.
  intros w. rewrite get_api_data_run. cbn zeta.
  destruct (api w (requests w)) as [e|status body];
    [apply records_kept_same_map; [reflexivity|reflexivity|cbn; lia]|].
  destruct (Z.eqb status 200);
    [|apply records_kept_same_map; [reflexivity|reflexivity|cbn; lia]].
  destruct body; apply records_kept_same_map; (reflexivity || (cbn; lia)).
Qed.

Lemma records_kept_run (n : nat) (interval : Z) :
  follows records_kept (start_monitoring n interval).
Proof.
  apply follows_start_monitoring;
    first [exact records_kept_refl | exact records_kept_trans | exact records_kept_check
          | exact records_kept_send | exact records_kept_fetch
          | intros ev w _; apply records_kept_same_map; (reflexivity || (cbn; lia))].
Qed.

(** X3.  If every recorded time is a reading of the clock made before, it
    is still so after any number of rounds of the monitor; under a clock
    that never goes back no recorded time is then later than the current
    reading of the clock. *)
Theorem records_never_in_future (n : nat) (interval : Z) (w : World) :
  let w' := snd (start_monitoring n interval w) in
  records_are_readings w ->
  records_are_readings w' /\
  (monotone (clock w) ->
   forall k t, last_alerts (self w') !! k = Some t -> (t <= now w')%Q).
Proof.
  cbn zeta. intros Hr.
  destruct (records_kept_run n interval w) as (Hclock & _ & _ & Hkeep & _).
  split; [apply Hkeep, Hr|].
  intros Hmono k t Hk.
  destruct (Hkeep Hr k t Hk) as (i & Hi & ->).
  unfold now. rewrite Hclock. apply Hmono. lia.
Qed.

(** X4.  The monitor never removes a record: a key recorded before any
    number of rounds is recorded after them, and under a clock that never
    goes back (the records being readings made before) its recorded time
    has not gone back. *)
Theorem records_persist (n : nat) (interval : Z) (w : World) (k : string) (t : Q) :
  let w' := snd (start_monitoring n interval w) in
  last_alerts (self w) !! k = Some t ->
  (exists t', last_alerts (self w') !! k = Some t') /\
  (monotone (clock w) -> records_are_readings w ->
   forall t', last_alerts (self w') !! k = Some t' -> (t <= t')%Q).
Proof.
  cbn zeta. intros Hk.
  destruct (records_kept_run n interval w) as (_ & _ & Hsome & _ & Hle).
  split.
  - apply Hsome. eauto.
  - intros Hmono Hr t' Ht'. apply (Hle Hmono Hr k t t' Hk Ht').
Qed.

(** ** Requests to the webhook *)

Lemma posts_accounted_events (w w' : World) (evs : list event) :
  slack_webhook_url (self w') = slack_webhook_url (self w) ->
  trace w' = (trace w ++ evs)%list ->
  posts w' = posts w ->
  count is_notification evs = O ->
  posts_accounted w w'.
Proof.
  intros Hurl Ht Hp Hn. split; [exact Hurl|]. exists evs.
  assert (Hposted : count is_posted evs = O).
  { clear - Hn. induction evs as [|ev evs IH]; [reflexivity|].
    rewrite count_cons in *.
    destruct ev as [? ? []| | | | | | |]; cbn in *; solve [lia|apply IH; exact Hn]. }
  split; [exact Ht|]. split; [lia|].
  rewrite Hposted, Hn. destruct (configured (self w)); reflexivity.
Qed.

Lemma posts_accounted_refl (w : World) : posts_accounted w w.
Proof.
  apply (posts_accounted_events w w []); try reflexivity.
  symmetry. apply app_nil_r.
Qed.

Lemma posts_accounted_trans (a b c : World) :
  posts_accounted a b -> posts_accounted b c -> posts_accounted a c.
Proof.
  intros (Hu1 & e1 & Ht1 & Hp1 & Hc1) (Hu2 & e2 & Ht2 & Hp2 & Hc2).
  split; [congruence|]. exists (e1 ++ e2)%list. split; [|split].
  - rewrite Ht2, Ht1. symmetry. apply app_assoc.
  - rewrite count_app. lia.
  - assert (Hcfg : configured (self b) = configured (self a))
      by (unfold configured; rewrite Hu1; reflexivity).
    rewrite Hcfg in Hc2. rewrite !count_app, Hc1, Hc2.
    destruct (configured (self a)); reflexivity.
Qed.

Lemma posts_accounted_check (k : string) (c : option Z) :
  follows posts_accounted (should_send_alert k c).
Proof.
  intros w. rewrite should_send_alert_run.
  destruct (cooldown_elapsed k c w); cbn [snd];
    apply (posts_accounted_events _ _ []); try reflexivity;
    cbn; symmetry; apply app_nil_r.
Qed.

Lemma count_nil (f : event -> bool) : count f [] = O.
Proof. reflexivity. Qed.

Lemma posts_accounted_send (text : message) (sev : severity) :
  follows posts_accounted (send_slack_alert text sev).
Proof.
  intros w. unfold send_slack_alert, bind, get, modify, time_time, http_post.
  unfold posts_accounted, configured. cbn [self].
  destruct (slack_webhook_url (self w)) as [url|] eqn:Hurl.
  - destruct (String.eqb url "") eqn:Hempty; cbn; rewrite ?Hurl.
    + split; [reflexivity|]. eexists. split; [reflexivity|].
      rewrite !count_cons, !count_nil. cbn. split; [lia|reflexivity].
    + split; [reflexivity|]. eexists. split; [reflexivity|].
      rewrite !count_cons, !count_nil. cbn. split; [lia|reflexivity].
  - cbn. rewrite ?Hurl. split; [reflexivity|]. eexists. split; [reflexivity|].
    rewrite !count_cons, !count_nil. cbn. split; [lia|reflexivity].
Qed.

Lemma posts_accounted_fetch (endpoint : string) :
  follows posts_accounted (get_api_data endpoint).
Proof.
  intros w. rewrite get_api_data_run. cbn zeta.
  destruct (api w (requests w)) as [e|status body].
  - apply (posts_accounted_events _ _ [ErrorFetching endpoint e]); reflexivity.
  - destruct (Z.eqb status 200).
    + destruct body as [data|e].
      * apply (posts_accounted_events _ _ []); try reflexivity.
        cbn. symmetry. apply app_nil_r.
      * apply (posts_accounted_events _ _ [ErrorFetching endpoint e]); reflexivity.
    + apply (posts_accounted_events _ _ [ApiRequestFailed endpoint status]); reflexivity.
Qed.

Lemma posts_accounted_log (ev : event) (w : World) :
  scheduler_event ev -> posts_accounted w (emit ev w).
Proof.
  intros Hev. apply (posts_accounted_events _ _ [ev]); try reflexivity.
  destruct ev; cbn in Hev; try contradiction; reflexivity.
Qed.

(** X5.  Over any number of rounds, the requests made to the webhook are
    exactly the notifications the trace shows as posted: with a webhook
    address every notification is posted, and with none (unset or empty)
    the monitor makes no request at all. *)
Theorem posts_are_notifications (n : nat) (interval : Z) (w : World) :
  let w' := snd (start_monitoring n interval w) in
  let evs := new_events w w' in
  posts w' = (posts w + count is_posted evs)%nat /\
  (configured (self w) = true -> count is_posted evs = count is_notification evs) /\
  (configured (self w) = false -> posts w' = posts w).
Proof.
  cbn zeta.
  assert (H : posts_accounted w (snd (start_monitoring n interval w))).
  { apply follows_start_monitoring;
      first [exact posts_accounted_refl | exact posts_accounted_trans
            | exact posts_accounted_check | exact posts_accounted_send
            | exact posts_accounted_fetch | exact posts_accounted_log]. }
  destruct H as (_ & evs & Ht & Hp & Hc).
  rewrite (new_events_app _ _ _ Ht).
  split; [exact Hp|]. split.
  - intros Hcfg. rewrite Hcfg in Hc. exact Hc.
  - intros Hcfg. rewrite Hcfg in Hc. lia.
Qed.

(** ** The scheduling loop *)




(** ** Missing consumers *)

Lemma py_lt_num (v : pyval) (m n : Q) :
  num_of v = Some m -> py_lt v n = Ok (Qlt_bool m n).
Proof. intros H. unfold py_lt. rewrite H. reflexivity. Qed.

Lemma consumers_condition_true (messages consumers : pyval) (minimum : Z) :
  consumers_condition messages consumers minimum = Ok true <->
  exists m c,
    num_of messages = Some m /\ num_of consumers = Some c /\
    (0 < m)%Q /\ (c < inject_Z minimum)%Q.
Proof.
  unfold consumers_condition, res_bind, py_gt, py_lt. split.
  - destruct (num_of messages) as [m|]; [|discriminate].
    destruct (Qlt_bool 0 m) eqn:Hm; [|discriminate].
    destruct (num_of consumers) as [c|]; [|discriminate].
    intros [= Hc]. exists m, c. repeat split; try reflexivity; apply Qlt_bool_lt; assumption.
  - intros (m & c & Hm & Hc & Hpos & Hlt). rewrite Hm.
    apply Qlt_bool_lt in Hpos. rewrite Hpos, Hc.
    apply Qlt_bool_lt in Hlt. rewrite Hlt. reflexivity.
Qed.

(** X7.  The missing consumers rule holds exactly when the messages are
    above zero and the consumers below the minimum.  At zero messages (or
    below) the consumers are not looked at: the rule does nothing, even
    when the consumers field is not a number; above zero messages a
    consumers field that is not a number raises [TypeError]. *)
Theorem missing_consumers_rule
    (queue queue_name messages consumers : pyval) (cd : Z) (w : World) :
  let minimum := min_consumers_per_queue (thresholds (self w)) in
  dict_get queue "consumers" (PNum 0) = Ok consumers ->
  (consumers_condition messages consumers minimum = Ok true <->
   exists m c,
     num_of messages = Some m /\ num_of consumers = Some c /\
     (0 < m)%Q /\ (c < inject_Z minimum)%Q) /\
  (consumers_condition messages consumers minimum = Ok true ->
   alerts_at w cd (alert_key (OnQueue NoConsumers (py_str queue_name)))
     (MissingConsumers queue_name messages consumers minimum) warning
     (consumer_monitoring queue queue_name messages cd)) /\
  (forall m, num_of messages = Some m -> (m <= 0)%Q ->
     consumer_monitoring queue queue_name messages cd w = (Ok tt, w)) /\
  (forall m c, num_of messages = Some m -> num_of consumers = Some c ->
     (inject_Z minimum <= c)%Q ->
     consumer_monitoring queue queue_name messages cd w = (Ok tt, w)) /\
  (forall m, num_of messages = Some m -> (0 < m)%Q -> num_of consumers = None ->
     consumer_monitoring queue queue_name messages cd w = (Raise TypeError, w)).
Proof.
  intros minimum Hget.
  pose proof (consumer_monitoring_run queue queue_name messages consumers cd w Hget) as Hrun.
  fold minimum in Hrun.
  split; [apply consumers_condition_true|]. split; [|split; [|split]].
  - intros Hcond.
    pose proof (alert_alerts_at w cd (alert_key (OnQueue NoConsumers (py_str queue_name)))
                  (MissingConsumers queue_name messages consumers minimum) warning)
      as [Hfire Hquiet].
    split.
    + intros He. rewrite Hrun, Hcond. apply Hfire. exact He.
    + intros t Ht Hlt. rewrite Hrun, Hcond. apply (Hquiet t Ht Hlt).
  - intros m Hm Hle. rewrite Hrun. unfold consumers_condition, res_bind.
    rewrite (py_gt_num messages m _ Hm). apply Qlt_bool_ge in Hle. rewrite Hle. reflexivity.
  - intros m c Hm Hc Hle. rewrite Hrun. unfold consumers_condition, res_bind.
    rewrite (py_gt_num messages m _ Hm), (py_lt_num consumers c _ Hc).
    apply Qlt_bool_ge in Hle. rewrite Hle. destruct (Qlt_bool 0 m); reflexivity.
  - intros m Hm Hpos Hc. rewrite Hrun. unfold consumers_condition, res_bind.
    rewrite (py_gt_num messages m _ Hm). apply Qlt_bool_lt in Hpos. rewrite Hpos.
    unfold py_lt. rewrite Hc. reflexivity.
Qed.

(** ** High disk *)

Lemma disk_usage_run (node node_name disk_free disk_limit : pyval) (w : World) :
  dict_get node "disk_free" (PNum 1) = Ok disk_free ->
  dict_get node "disk_free_limit" (PNum 0) = Ok disk_limit ->
  disk_usage node node_name w =
    match disk_usable disk_free disk_limit with
    | Ok true =>
        match disk_used_percent disk_free disk_limit with
        | Ok percent =>
            if Qlt_bool (inject_Z (max_disk_usage_percent (thresholds (self w)))) percent
            then alert (alert_key (OnNode Disk (py_str node_name))) None
                       (HighDiskUsage node_name percent
                          (max_disk_usage_percent (thresholds (self w))) disk_free)
                       critical w
            else (Ok tt, w)
        | Raise e => (Raise e, w)
        end
    | Ok false => (Ok tt, w)
    | Raise e => (Raise e, w)
    end.
Proof.
  intros Hf Hl. unfold disk_usage, bind, lift, get. rewrite Hf, Hl.
  destruct (disk_usable disk_free disk_limit) as [[|]|e]; try reflexivity.
  destruct (disk_used_percent disk_free disk_limit) as [p|e]; [|reflexivity].
  destruct (Qlt_bool _ p); reflexivity.
Qed.


(** ** Snapshots with missing fields *)

Lemma dict_get_absent (entries : list (string * pyval)) (key : string) (default : pyval) :
  assoc key entries = None -> dict_get (PDict entries) key default = Ok default.
Proof. intros H. cbn. rewrite H. reflexivity. Qed.

Lemma Qlt_bool_nonneg (thr : Z) (x : Q) :
  0 <= thr -> (x <= 0)%Q -> Qlt_bool (inject_Z thr) x = false.
Proof.
  intros Hthr Hx. apply Qlt_bool_ge.
  apply (Qle_trans _ 0); [exact Hx|].
  change 0%Q with (inject_Z 0). rewrite <- Zle_Qle. exact Hthr.
Qed.

(** X9.  A queue snapshot that carries no message count, no unacknowledged
    count and no message statistics reads all of them as 0: under queue
    length and unacknowledged thresholds that are not negative none of the
    four rules does anything, whatever the consumers field holds, and
    nothing is raised. *)
Theorem bare_queue_is_silent (entries : list (string * pyval)) (queue_name : pyval) (w : World) :
  let queue := PDict entries in
  let s := self w in
  dict_get queue "name" (PStr "unknown") = Ok queue_name ->
  assoc "messages" entries = None ->
  assoc "messages_unacknowledged" entries = None ->
  assoc "message_stats" entries = None ->
  0 <= fst (get_queue_config s queue_name) ->
  0 <= max_unacknowledged_messages (thresholds s) ->
  check_queue queue w = (Ok tt, w).
Proof.
  intros queue s Hname Hm Hu Hs Hthr Hunack. subst s.
  destruct (dict_get queue "vhost" (PStr "/")) as [vhost|e] eqn:Hv; [|discriminate].
  rewrite (check_queue_run queue queue_name vhost (PNum 0) w Hname Hv
             (dict_get_absent entries _ _ Hm)).
  unfold bind.
  rewrite queue_backup_run. unfold queue_backup_condition.
  rewrite (py_gt_num (PNum 0) 0%Q _ eq_refl), (Qlt_bool_nonneg _ 0%Q Hthr (Qle_refl 0)).
  rewrite (unacknowledged_run queue queue_name (PNum 0) _ w (dict_get_absent entries _ _ Hu)).
  unfold unacked_condition.
  rewrite (py_gt_num (PNum 0) 0%Q _ eq_refl), (Qlt_bool_nonneg _ 0%Q Hunack (Qle_refl 0)).
  destruct (dict_get queue "consumers" (PNum 0)) as [consumers|e] eqn:Hc; [|discriminate].
  rewrite (consumer_monitoring_run queue queue_name (PNum 0) consumers _ w Hc).
  unfold consumers_condition, res_bind. rewrite (py_gt_num (PNum 0) 0%Q _ eq_refl).
  change (Qlt_bool 0 0) with false. cbn iota.
  apply (processing_halt_without_stats entries queue_name (PNum 0) 0%Q); [exact Hs|reflexivity].
Qed.

Lemma node_status_run (node node_name running : pyval) (w : World) :
  dict_get node "running" (PBool false) = Ok running ->
  node_status node node_name w =
    if truthy running
    then (Ok tt, w)
    else alert (alert_key (OnNode NodeStatus (py_str node_name))) None
               (NodeDown node_name) critical w.
Proof.
  intros H. unfold node_status, bind, lift. rewrite H.
  destruct (truthy running); reflexivity.
Qed.

(** X10.  A node snapshot without a [running] field is reported down: the
    node status rule reaches the tracker.  When the snapshot carries no
    memory and no disk limit figures either, the memory and disk rules do
    nothing (thresholds not negative), so the check of that node is the
    node down alert alone. *)
Theorem bare_node_reported_down (entries : list (string * pyval)) (node_name : pyval) (w : World) :
  let node := PDict entries in
  dict_get node "name" (PStr "unknown") = Ok node_name ->
  assoc "running" entries = None ->
  node_status node node_name w =
    alert (alert_key (OnNode NodeStatus (py_str node_name))) None
          (NodeDown node_name) critical w /\
  (assoc "mem_used" entries = None ->
   assoc "mem_limit" entries = None ->
   assoc "disk_free_limit" entries = None ->
   0 <= max_memory_usage_percent (thresholds (self w)) ->
   check_node node w =
     alert (alert_key (OnNode NodeStatus (py_str node_name))) None
           (NodeDown node_name) critical w).
Proof.
  intros node Hname Hrun.
  assert (Hstatus : forall w', node_status node node_name w' =
            alert (alert_key (OnNode NodeStatus (py_str node_name))) None
                  (NodeDown node_name) critical w').
  { intros w'. rewrite (node_status_run node node_name (PBool false) w'); [reflexivity|].
    apply dict_get_absent. exact Hrun. }
  split; [apply Hstatus|].
  intros Hused Hlimit Hdisk Hthr.
  unfold check_node. unfold bind at 1, lift at 1. rewrite Hname. unfold bind.
  rewrite (memory_usage_run node node_name (PNum 0) (PNum 1) 0%Q w
             (dict_get_absent entries _ _ Hused) (dict_get_absent entries _ _ Hlimit) eq_refl).
  rewrite (memory_percent_usable (PNum 0) (PNum 1) 0%Q 1%Q eq_refl eq_refl eq_refl).
  rewrite (Qlt_bool_nonneg _ _ Hthr); [|vm_compute; discriminate].
  destruct (dict_get node "disk_free" (PNum 1)) as [disk_free|e] eqn:Hfree; [|discriminate].
  rewrite (disk_usage_run node node_name disk_free (PNum 0) w Hfree
             (dict_get_absent entries _ _ Hdisk)).
  unfold disk_usable, res_bind. rewrite (py_gt_num (PNum 0) 0%Q _ eq_refl).
  change (Qlt_bool 0 0) with false. cbn iota.
  apply Hstatus.
Qed.

(** ** Answers that are not a list of snapshots *)

Lemma check_after_fetch (endpoint : string) (body : pyval -> M unit) (data : pyval) (w : World) :
  fst (get_api_data endpoint w) = Ok data ->
  (let* answer := get_api_data endpoint in
   if negb (truthy answer)
   then ret tt
   else let* items := lift (py_iter answer) in for_each items body) w =
  if truthy data
  then match py_iter data with
       | Ok items => for_each items body (snd (get_api_data endpoint w))
       | Raise e => (Raise e, snd (get_api_data endpoint w))
       end
  else (Ok tt, snd (get_api_data endpoint w)).
Proof.
  intros Hdata. unfold bind at 1.
  destruct (get_api_data endpoint w) as [r w1]. cbn [fst snd] in *. subst r.
  destruct (truthy data); cbn [negb]; [|reflexivity].
  unfold bind, lift. destruct (py_iter data); reflexivity.
Qed.

(** X11.  What the queue check does with the answer of the API: nothing
    when the fetch failed or the answer is empty (no queue, null, an empty
    object); the loop over the snapshots when it is a list; it raises
    [TypeError] on a number or [true], and [AttributeError] on a text or
    an object that is not empty, before any rule is evaluated. *)
Theorem queue_check_by_answer (data : pyval) (w : World) :
  let w1 := snd (get_api_data "queues" w) in
  fst (get_api_data "queues" w) = Ok data ->
  (truthy data = false -> check_queue_health w = (Ok tt, w1)) /\
  (forall items, data = PList items -> check_queue_health w = for_each items check_queue w1) /\
  (truthy data = true -> (exists q, data = PNum q) \/ (exists b, data = PBool b) ->
   check_queue_health w = (Raise TypeError, w1)) /\
  (truthy data = true -> (exists s, data = PStr s) \/ (exists entries, data = PDict entries) ->
   check_queue_health w = (Raise AttributeError, w1)).
Proof.
  intros w1 Hdata.
  pose proof (check_after_fetch "queues" check_queue data w Hdata) as Hrun.
  change (check_queue_health w =
          if truthy data
          then match py_iter data with
               | Ok items => for_each items check_queue w1
               | Raise e => (Raise e, w1)
               end
          else (Ok tt, w1)) in Hrun.
  split; [|split; [|split]].
  - intros Hf. rewrite Hrun, Hf. reflexivity.
  - intros items ->. rewrite Hrun. destruct items as [|x items]; reflexivity.
  - intros Ht [[q ->]|[b ->]]; rewrite Hrun, Ht; reflexivity.
  - intros Ht [[s ->]|[entries ->]]; rewrite Hrun, Ht.
    + destruct s as [|c s]; [discriminate|]. reflexivity.
    + destruct entries as [|[k v] entries]; [discriminate|]. reflexivity.
Qed.

(** X12.  In the loop over the queues, a snapshot on which the check raises
    ends the loop: the queues listed after it are not evaluated, so the
    outcome does not depend on them. *)
Theorem malformed_queue_hides_rest (good rest rest' : list pyval) (bad : pyval) (w : World) :
  (forall w', exists e, fst (check_queue bad w') = Raise e) ->
  (exists e, fst (for_each (good ++ bad :: rest) check_queue w) = Raise e) /\
  for_each (good ++ bad :: rest) check_queue w =
  for_each (good ++ bad :: rest') check_queue w.
Proof.
  intros Hbad. revert w. induction good as [|x good IH]; intros w.
  - cbn [app for_each]. unfold bind. destruct (Hbad w) as [e He].
    destruct (check_queue bad w) as [r w1]. cbn in He. subst r.
    split; [exists e; reflexivity|reflexivity].
  - cbn [app for_each]. unfold bind.
    destruct (check_queue x w) as [[[]|e] w1].
    + apply IH.
    + split; [exists e; reflexivity|reflexivity].
Qed.

(** ** A cooldown of zero *)

(** X13.  A cooldown of zero (or below) given to the check is used as it
    is, not replaced by the default: when no record for the key is later
    than the clock, the check answers true and records the time of the
    call. *)
Theorem zero_cooldown_never_suppresses (k : string) (cd : Z) (w : World) :
  cd <= 0 ->
  (forall t, last_alerts (self w) !! k = Some t -> (t <= now w)%Q) ->
  should_send_alert k (Some cd) w = (Ok true, record_alert k (now w) (tick w)).
Proof.
  intros Hcd Hpast. rewrite should_send_alert_run.
  assert (H : cooldown_elapsed k (Some cd) w = true).
  { apply cooldown_elapsed_spec.
    destruct (last_alerts (self w) !! k) as [t|] eqn:Hk; [right|left; reflexivity].
    exists t. split; [reflexivity|]. cbn [effective_cooldown].
    specialize (Hpast t eq_refl).
    assert (Hq : (inject_Z cd <= 0)%Q).
    { change 0%Q with (inject_Z 0). rewrite <- Zle_Qle. exact Hcd. }
    lra. }
  rewrite H. reflexivity.
Qed.

(** ** The list of long job queues *)

Lemma lstrip_idem (s : string) : lstrip (lstrip s) = lstrip s.
Proof.
  induction s as [|c s IH]; [reflexivity|]. cbn [lstrip].
  destruct (is_space c) eqn:E; [exact IH|]. cbn [lstrip]. rewrite E. reflexivity.
Qed.

Lemma rstrip_idem (s : string) : rstrip (rstrip s) = rstrip s.
Proof.
  induction s as [|c s IH]; [reflexivity|]. cbn [rstrip].
  destruct (rstrip s) as [|k kept] eqn:E.
  - destruct (is_space c) eqn:Hc; [reflexivity|]. cbn [rstrip]. rewrite Hc. reflexivity.
  - cbn [rstrip] in *. rewrite IH. reflexivity.
Qed.

Lemma rstrip_fixed_tail (c : ascii) (s : string) :
  rstrip (String c s) = String c s -> rstrip s = s.
Proof.
  cbn [rstrip]. destruct (rstrip s) as [|k kept].
  - destruct (is_space c); [discriminate|]. intros [= <-]. reflexivity.
  - intros [= <-]. reflexivity.
Qed.

Lemma rstrip_lstrip_fixed (s : string) : rstrip s = s -> rstrip (lstrip s) = lstrip s.
Proof.
  induction s as [|c s IH]; [reflexivity|]. intros H. cbn [lstrip].
  destruct (is_space c); [|exact H].
  apply IH. apply (rstrip_fixed_tail c). exact H.
Qed.

Lemma strip_idem (s : string) : strip (strip s) = strip s.
Proof.
  unfold strip. rewrite (rstrip_lstrip_fixed (rstrip s) (rstrip_idem s)).
  apply lstrip_idem.
Qed.

Lemma lstrip_free (c : ascii) (s : string) :
  has_char c s = false -> has_char c (lstrip s) = false.
Proof.
  induction s as [|c' s IH]; [reflexivity|]. intros H. cbn [lstrip].
  destruct (is_space c'); [|exact H].
  apply IH. cbn in H. apply orb_false_iff in H. apply H.
Qed.

Lemma rstrip_free (c : ascii) (s : string) :
  has_char c s = false -> has_char c (rstrip s) = false.
Proof.
  induction s as [|c' s IH]; [reflexivity|]. intros H.
  cbn in H. apply orb_false_iff in H. destruct H as [Hc Hs].
  cbn [rstrip]. specialize (IH Hs). destruct (rstrip s) as [|k kept].
  - destruct (is_space c'); [reflexivity|]. cbn. rewrite Hc. reflexivity.
  - cbn [has_char]. rewrite Hc. exact IH.
Qed.

Lemma strip_free (c : ascii) (s : string) :
  has_char c s = false -> has_char c (strip s) = false.
Proof. intros H. apply lstrip_free, rstrip_free, H. Qed.

Lemma split_on_cons (sep : ascii) (s : string) :
  exists piece pieces, split_on sep s = piece :: pieces.
Proof.
  induction s as [|c s (p & ps & IH)]; cbn [split_on]; [eauto|].
  destruct (Ascii.eqb c sep); [eauto|]. rewrite IH. eauto.
Qed.

Lemma split_on_pieces_free (sep : ascii) (s : string) :
  Forall (fun piece => has_char sep piece = false) (split_on sep s).
Proof.
  induction s as [|c s IH]; cbn [split_on].
  - apply Forall_cons_2; [reflexivity|apply Forall_nil_2].
  - destruct (Ascii.eqb c sep) eqn:E.
    + apply Forall_cons_2; [reflexivity|exact IH].
    + destruct (split_on sep s) as [|p ps].
      * apply Forall_cons_2; [|apply Forall_nil_2]. cbn. rewrite E. reflexivity.
      * apply Forall_cons_1 in IH. destruct IH as [Hp Hps].
        apply Forall_cons_2; [|exact Hps]. cbn. rewrite E. exact Hp.
Qed.

Lemma split_on_free (sep : ascii) (s : string) :
  has_char sep s = false -> split_on sep s = [s].
Proof.
  induction s as [|c s IH]; [reflexivity|]. intros H.
  cbn in H. apply orb_false_iff in H. destruct H as [Hc Hs].
  cbn [split_on]. rewrite Hc, (IH Hs). reflexivity.
Qed.

Lemma split_on_app (sep : ascii) (s t : string) :
  has_char sep s = false ->
  split_on sep (s +:+ String sep t) = s :: split_on sep t.
Proof.
  induction s as [|c s IH]; intros H.
  - change (EmptyString +:+ String sep t) with (String sep t).
    cbn [split_on]. rewrite Ascii.eqb_refl. reflexivity.
  - cbn in H. apply orb_false_iff in H. destruct H as [Hc Hs].
    change (String c s +:+ String sep t) with (String c (s +:+ String sep t)).
    cbn [split_on]. rewrite Hc, (IH Hs). reflexivity.
Qed.

Lemma split_on_join (sep : ascii) (pieces : list string) :
  pieces <> [] ->
  Forall (fun piece => has_char sep piece = false) pieces ->
  split_on sep (join_with sep pieces) = pieces.
Proof.
  induction pieces as [|p ps IH]; [contradiction|]. intros _ Hfree.
  apply Forall_cons_1 in Hfree. destruct Hfree as [Hp Hps].
  destruct ps as [|p' ps].
  - cbn. apply split_on_free. exact Hp.
  - change (join_with sep (p :: p' :: ps))
      with (p +:+ String sep (join_with sep (p' :: ps))).
    rewrite (split_on_app sep p _ Hp), IH; [reflexivity|discriminate|exact Hps].
Qed.

Lemma clean_names_kept (names : list string) :
  Forall clean_name names -> List.filter not_empty (map strip names) = names.
Proof.
  induction 1 as [|q names (Hne & Hstrip & _) _ IH]; [reflexivity|].
  cbn [map List.filter]. rewrite Hstrip, IH.
  unfold not_empty. destruct (String.eqb q "") eqn:E; [|reflexivity].
  apply String.eqb_eq in E. contradiction.
Qed.

Lemma stripped_pieces_clean (pieces : list string) :
  Forall (fun piece => has_char ","%char piece = false) pieces ->
  Forall clean_name (List.filter not_empty (map strip pieces)).
Proof.
  induction 1 as [|p pieces Hp _ IH]; [apply Forall_nil_2|].
  cbn [map List.filter]. unfold not_empty at 1.
  destruct (String.eqb (strip p) "") eqn:E; cbn [negb]; [exact IH|].
  apply Forall_cons_2; [|exact IH]. split; [|split].
  - intros H. rewrite H in E. discriminate.
  - apply strip_idem.
  - apply strip_free. exact Hp.
Qed.

Lemma all_space_rstrip (s : string) : all_space s = true -> rstrip s = "".
Proof.
  induction s as [|c s IH]; [reflexivity|]. cbn [all_space rstrip].
  intros H. apply andb_true_iff in H. destruct H as [Hc Hs].
  rewrite (IH Hs), Hc. reflexivity.
Qed.

Lemma split_on_blank (s : string) :
  blank s = true -> Forall (fun piece => all_space piece = true) (split_on ","%char s).
Proof.
  induction s as [|c s IH]; cbn [blank split_on].
  - intros _. apply Forall_cons_2; [reflexivity|apply Forall_nil_2].
  - intros H. apply andb_true_iff in H. destruct H as [Hc Hs]. specialize (IH Hs).
    destruct (Ascii.eqb c ","%char).
    + apply Forall_cons_2; [reflexivity|exact IH].
    + rewrite orb_false_r in Hc.
      destruct (split_on ","%char s) as [|p ps].
      * apply Forall_cons_2; [|apply Forall_nil_2]. cbn. rewrite Hc. reflexivity.
      * apply Forall_cons_1 in IH. destruct IH as [Hp Hps].
        apply Forall_cons_2; [|exact Hps]. cbn. rewrite Hc. exact Hp.
Qed.

Lemma all_space_dropped (pieces : list string) :
  Forall (fun piece => all_space piece = true) pieces ->
  List.filter not_empty (map strip pieces) = [].
Proof.
  induction 1 as [|p pieces Hp _ IH]; [reflexivity|].
  cbn [map List.filter]. unfold strip at 1. rewrite (all_space_rstrip p Hp). exact IH.
Qed.

Lemma default_long_job_queues_clean : Forall clean_name default_long_job_queues.
Proof.
  apply Forall_cons_2; [|apply Forall_cons_2; [|apply Forall_nil_2]];
    (split; [discriminate|split; reflexivity]).
Qed.

Lemma parsed_names_clean (env : option string) :
  parse_long_job_queues env <> [] /\ Forall clean_name (parse_long_job_queues env).
Proof.
  split.
  - unfold parse_long_job_queues. destruct (List.filter not_empty _); discriminate.
  - unfold parse_long_job_queues.
    pose proof (stripped_pieces_clean _
                  (split_on_pieces_free ","%char
                     match env with Some value => value | None => "" end)) as Hclean.
    destruct (List.filter not_empty _) as [|q names];
      [exact default_long_job_queues_clean|exact Hclean].
Qed.

(** X14.  Whatever the environment variable holds, the list of long job
    queues is never empty, and each of its names is clean: not empty,
    without white space at either end, without comma.  An unset variable,
    and a variable that holds nothing but white space and commas, give
    the two default queues. *)
Theorem long_job_queues_clean (env : option string) :
  parse_long_job_queues env <> [] /\
  Forall clean_name (parse_long_job_queues env) /\
  parse_long_job_queues None = default_long_job_queues /\
  (forall value, env = Some value -> blank value = true ->
     parse_long_job_queues env = default_long_job_queues).
Proof.
  destruct (parsed_names_clean env) as [Hne Hclean].
  split; [exact Hne|]. split; [exact Hclean|]. split; [reflexivity|].
  intros value -> Hblank. unfold parse_long_job_queues.
  rewrite (all_space_dropped _ (split_on_blank value Hblank)). reflexivity.
Qed.

(** X15.  Reading back a list that was written with commas: for clean
    names, at least one, the variable that holds them joined by commas
    gives exactly these names, in order; in particular what the monitor
    read, written back, is read again the same. *)
Theorem long_job_queues_round_trip (names : list string) :
  names <> [] ->
  Forall clean_name names ->
  parse_long_job_queues (Some (join_with ","%char names)) = names /\
  (forall env,
     parse_long_job_queues
       (Some (join_with ","%char (parse_long_job_queues env))) =
     parse_long_job_queues env).
Proof.
  assert (Hback : forall l, l <> [] -> Forall clean_name l ->
                    parse_long_job_queues (Some (join_with ","%char l)) = l).
  { intros l Hne Hclean. unfold parse_long_job_queues.
    rewrite split_on_join, clean_names_kept; try assumption.
    - destruct l; [contradiction|reflexivity].
    - apply (Forall_impl _ _ _ Hclean). intros q (_ & _ & Hq). exact Hq. }
  intros Hne Hclean. split; [apply Hback; assumption|].
  intros env. destruct (parsed_names_clean env) as [H1 H2].
  apply Hback; assumption.
Qed.

Lemma every_monotone (step : Z) : 0 <= step -> monotone (every step).
Proof.
  intros Hstep i j Hij. unfold every. rewrite <- Zle_Qle. nia.
Qed.

(** ** The node check and the answer of the API *)

(** X16.  What the node check does with the answer of the API: nothing
    when the fetch failed or the answer is empty; the loop over the
    snapshots when it is a list; it raises [TypeError] on a number or
    [true], and [AttributeError] on a text or an object that is not empty,
    before any rule is evaluated. *)
Theorem node_check_by_answer (data : pyval) (w : World) :
  let w1 := snd (get_api_data "nodes" w) in
  fst (get_api_data "nodes" w) = Ok data ->
  (truthy data = false -> check_node_health w = (Ok tt, w1)) /\
  (forall items, data = PList items -> check_node_health w = for_each items check_node w1) /\
  (truthy data = true -> (exists q, data = PNum q) \/ (exists b, data = PBool b) ->
   check_node_health w = (Raise TypeError, w1)) /\
  (truthy data = true -> (exists s, data = PStr s) \/ (exists entries, data = PDict entries) ->
   check_node_health w = (Raise AttributeError, w1)).
Proof.
  intros w1 Hdata.
  pose proof (check_after_fetch "nodes" check_node data w Hdata) as Hrun.
  change (check_node_health w =
          if truthy data
          then match py_iter data with
               | Ok items => for_each items check_node w1
               | Raise e => (Raise e, w1)
               end
          else (Ok tt, w1)) in Hrun.
  split; [|split; [|split]].
  - intros Hf. rewrite Hrun, Hf. reflexivity.
  - intros items ->. rewrite Hrun. destruct items as [|x items]; reflexivity.
  - intros Ht [[q ->]|[b ->]]; rewrite Hrun, Ht; reflexivity.
  - intros Ht [[s ->]|[entries ->]]; rewrite Hrun, Ht.
    + destruct s as [|c s]; [discriminate|]. reflexivity.
    + destruct entries as [|[k v] entries]; [discriminate|]. reflexivity.
Qed.

(** ** Independent windows *)

(** X17.  The windows of two different sources (another rule, or the same
    rule on another name) are independent: an alert step for one leaves
    the record of the other as it was, whether it notifies or not. *)
Theorem independent_windows (a b : alert_source) (c : option Z) (text : message)
    (sev : severity) (w : World) :
  a <> b ->
  last_alerts (self (snd (alert (alert_key a) c text sev w))) !! alert_key b =
  last_alerts (self w) !! alert_key b.
Proof.
  intros Hne. rewrite alert_last_alerts, should_send_alert_run.
  destruct (cooldown_elapsed (alert_key a) c w); [|reflexivity].
  cbn. apply lookup_insert_ne. intros Heq. apply Hne. apply alert_key_inj. exact Heq.
Qed.

(** ** Severities *)

Lemma keeps_send_graded (K : string -> Prop) (body : message) :
  keeps K well_graded (send_slack_alert body (severity_of body)).
Proof.
  intros w. unfold send_slack_alert, bind, get, modify, time_time, http_post.
  cbn [self].
  destruct (slack_webhook_url (self w)) as [url|].
  - destruct (String.eqb url "").
    + apply changes_emit. split; [reflexivity|exact I].
    + cbn [snd]. apply (changes_trans _ _ _ (set_posts (S (posts (tick w))) (tick w))).
      * apply changes_quiet; reflexivity.
      * apply changes_emit. repeat split.
  - apply changes_emit. split; [reflexivity|exact I].
Qed.

Lemma keeps_alert_graded (K : string -> Prop) (k : string) (c : option Z) (body : message) :
  K k -> keeps K well_graded (alert k c body (severity_of body)).
Proof.
  intros Hk. unfold alert. apply keeps_bind.
  - apply keeps_should_send_alert. exact Hk.
  - intros [|]; [apply keeps_send_graded|apply keeps_ret].
Qed.

Ltac graded_step :=
  match goal with
  | |- keeps _ _ (bind (lift _) _) => apply keeps_bind_lift; intros ? ?
  | |- keeps _ _ (bind _ _) => apply keeps_bind; [|intros ?]
  | |- keeps _ _ (ret _) => apply keeps_ret
  | |- keeps _ _ (get _) => apply keeps_get
  | |- keeps _ _ (if ?b then _ else _) => destruct b
  | |- keeps _ _ (alert ?k ?c ?body _) =>
      apply (keeps_alert_graded (fun _ => True) k c body); exact I
  | |- keeps _ _ (should_send_alert _ _) => apply keeps_should_send_alert; exact I
  | |- keeps _ _ (send_slack_alert ?body _) =>
      apply (keeps_send_graded (fun _ => True) body)
  | |- keeps _ _ (get_api_data _) => apply keeps_get_api_data; intros; exact I
  end.

Lemma graded_check_queue (queue : pyval) :
  keeps (fun _ => True) well_graded (check_queue queue).
Proof.
  unfold check_queue, queue_backup, unacknowledged, consumer_monitoring, processing_halt.
  repeat graded_step.
Qed.

Lemma graded_check_node (node : pyval) :
  keeps (fun _ => True) well_graded (check_node node).
Proof.
  unfold check_node, memory_usage, disk_usage, node_status.
  repeat graded_step.
Qed.

Lemma graded_checks :
  keeps (fun _ => True) well_graded
    (gather [check_queue_health; check_node_health; check_connections]).
Proof.
  apply keeps_gather.
  apply Forall_cons_2.
  { unfold check_queue_health. repeat graded_step.
    apply keeps_for_each. apply graded_check_queue. }
  apply Forall_cons_2.
  { unfold check_node_health. repeat graded_step.
    apply keeps_for_each. apply graded_check_node. }
  apply Forall_cons_2; [|apply Forall_nil_2].
  unfold check_connections. repeat graded_step.
Qed.

Lemma graded_run_health_check : keeps (fun _ => True) well_graded run_health_check.
Proof.
  intros w. rewrite run_health_check_run.
  pose proof (graded_checks (emit RunningHealthChecks w)) as Hg.
  assert (H0 : changes (fun _ => True) well_graded w (emit RunningHealthChecks w))
    by (apply changes_emit; exact I).
  destruct (gather _ _) as [[[]|e] w1]; cbn [snd] in *.
  - apply (changes_trans _ _ _ _ _ H0). apply (changes_trans _ _ _ _ _ Hg).
    apply changes_emit. exact I.
  - apply (changes_trans _ _ _ _ _ H0). apply (changes_trans _ _ _ _ _ Hg).
    apply (changes_trans _ _ _ (emit (ErrorDuringHealthChecks e) w1));
      [apply changes_emit; exact I|].
    apply (keeps_send_graded (fun _ => True) (MonitoringError e)).
Qed.

Lemma graded_monitoring_loop (n : nat) (interval : Z) :
  keeps (fun _ => True) well_graded (monitoring_loop n interval).
Proof.
  induction n as [|n IH]; cbn [monitoring_loop].
  - apply keeps_ret.
  - apply keeps_bind; [apply graded_run_health_check|intros _].
    apply keeps_bind; [|intros _; exact IH].
    intros w. apply changes_emit. exact I.
Qed.

(** X18.  Every notification of the monitor carries the severity of its
    text (critical for queue backup, processing halt, high disk, node
    down, connection failure and monitoring error; warning for
    unacknowledged messages and missing consumers; critical above 90
    percent and warning otherwise for high memory; info for the startup
    message alone), and every payload posted carries that text, that
    severity as its title and the colour of that severity. *)
Theorem notifications_well_graded (n : nat) (interval : Z) (w : World) :
  Forall well_graded (new_events w (snd (run_health_check w))) /\
  Forall well_graded (new_events w (snd (start_monitoring n interval w))).
Proof.
  split.
  - destruct (graded_run_health_check w) as [_ (evs & Ht & Hp)].
    rewrite (new_events_app _ _ _ Ht). exact Hp.
  - assert (H : keeps (fun _ => True) well_graded (start_monitoring n interval)).
    { unfold start_monitoring. apply keeps_bind.
      - intros w'. apply changes_emit. exact I.
      - intros _. apply keeps_bind; [|intros _; apply graded_monitoring_loop].
        apply (keeps_send_graded (fun _ => True) (MonitoringStarted interval)). }
    destruct (H w) as [_ (evs & Ht & Hp)].
    rewrite (new_events_app _ _ _ Ht). exact Hp.
Qed.

End Monitor.

(** * Instances *)

(** In a fresh monitor a rule evaluated every ten minutes under a cooldown
    of thirty notifies at 0, stays silent at 600 and 1200, and notifies
    again at 1800. *)
Lemma should_send_alert_cooldown_witness :
  let k := "queue_backup_orders" in
  let text := NodeDown (PStr "rabbit@a") in
  let evaluation := alert k (Some 1800) text critical in
  let w1 := snd (evaluation fresh_world) in
  let wn := snd (evaluations 2 evaluation w1) in
  last_alerts (self fresh_world) !! k = None /\
  notified text critical fresh_world w1 /\
  trace wn = trace w1 /\
  notified text critical wn (snd (evaluation wn)).
Proof.
  split; [reflexivity|].
  apply (proj2 (proj2 (should_send_alert_cooldown "queue_backup_orders" (Some 1800)
                         fresh_world))).
  - reflexivity.
  - intros i Hi. destruct i as [|[|i]]; [reflexivity|reflexivity|lia].
  - vm_compute. discriminate.
Defined.

(** A check made ten minutes after a record, under the default cooldown,
    answers false and leaves the map as it was. *)
Lemma cooldown_state_frame_witness :
  let k := "node_down_rabbit@a" in
  let w1 := snd (should_send_alert k None fresh_world) in
  fst (should_send_alert k None w1) = Ok false /\
  last_alerts (self (snd (should_send_alert k None w1))) = last_alerts (self w1).
Proof.
  split; [reflexivity|].
  apply (proj1 cooldown_state_frame). reflexivity.
Defined.

(** The queue [slow] is in the override list: with 1001 messages, above the
    default threshold but not the override one, its backup rule does
    nothing; with 5001 it alerts under the override cooldown. *)
Lemma queue_backup_parameters_pair_witness :
  dict_get (slow_queue 1001) "messages" (PNum 0) = Ok (PNum 1001) /\
  get_queue_config slow_monitor (PStr "slow") = (5000, 10800) /\
  queue_backup no_render (PStr "slow") (PStr "/") (PNum 1001) 5000 10800 slow_world
    = (Ok tt, slow_world) /\
  alerts_at slow_world 10800 "queue_backup_slow"
    (QueueBackupDetected (PStr "slow") (PNum 5001) 5000 (PStr "/")) critical
    (queue_backup no_render (PStr "slow") (PStr "/") (PNum 5001) 5000 10800).
Proof.
  split; [reflexivity|].
  destruct (queue_backup_parameters_pair no_render (slow_queue 1001)
              (PStr "slow") (PStr "/") (PNum 1001) slow_world
              eq_refl eq_refl eq_refl) as (Hpair & _ & _ & Hbelow).
  destruct (queue_backup_parameters_pair no_render (slow_queue 5001)
              (PStr "slow") (PStr "/") (PNum 5001) slow_world
              eq_refl eq_refl eq_refl) as (_ & _ & Habove & _).
  split; [exact Hpair|]. split.
  - apply (Hbelow 1001%Q); [reflexivity|]. vm_compute. discriminate.
  - apply (Habove 5001%Q); reflexivity.
Defined.





(** A request that raises adds one to the counter. *)
Lemma connection_failure_counter_witness :
  api flapping_world (requests flapping_world) = RequestRaised ClientError /\
  connection_failures (self (snd (get_api_data "queues" flapping_world))) =
    connection_failures (self flapping_world) + 1.
Proof.
  split; [reflexivity|].
  apply (proj1 (connection_failure_counter "queues" flapping_world) ClientError).
  reflexivity.
Defined.

(** The checks of the queue [orders] leave the record of another queue
    alone. *)
Lemma alert_key_by_rule_and_name_witness :
  let w := record_alert "queue_backup_invoices" 0%Q fresh_world in
  last_alerts (self (snd (check_queue no_render orders_default w))) !! "queue_backup_invoices"
    = Some 0%Q.
Proof.
  cbn zeta.
  destruct (alert_key_by_rule_and_name no_render) as (_ & _ & _ & Hqueue & _).
  rewrite Hqueue; [reflexivity|].
  intros r. destruct r; vm_compute; discriminate.
Defined.


(** Two rounds against an API that never answers: four requests, four
    failures counted. *)
Lemma connection_failures_bounded_witness :
  0 <= connection_failures (self fresh_world) /\
  0 <= connection_failures (self (snd (start_monitoring no_render 2 60 fresh_world))) <= 4.
Proof.
  split; [reflexivity|].
  apply (proj2 (proj2 (connection_failures_bounded no_render 2 60 fresh_world))).
  reflexivity.
Defined.

(** A monitor that starts with no record, under a clock that advances ten
    minutes a reading: after two rounds its records are readings of the
    clock, none later than the current one. *)
Lemma records_never_in_future_witness :
  records_are_readings fresh_world /\ monotone (clock fresh_world) /\
  let w' := snd (start_monitoring no_render 2 60 fresh_world) in
  records_are_readings w' /\
  forall k t, last_alerts (self w') !! k = Some t -> (t <= now w')%Q.
Proof.
  assert (H : records_are_readings fresh_world).
  { intros k t Hk. cbn in Hk. rewrite lookup_empty in Hk. discriminate. }
  assert (Hm : monotone (clock fresh_world)).
  { apply (every_monotone 600). lia. }
  split; [exact H|]. split; [exact Hm|].
  destruct (records_never_in_future no_render 2 60 fresh_world H) as [Hr Hle].
  split; [exact Hr|exact (Hle Hm)].
Defined.

(** A record made before two rounds is still there after them, and its
    time has not gone back. *)
Lemma records_persist_witness :
  last_alerts (self recorded_world) !! "node_down_rabbit@a" = Some 0%Q /\
  monotone (clock recorded_world) /\ records_are_readings recorded_world /\
  let w' := snd (start_monitoring no_render 2 60 recorded_world) in
  (exists t', last_alerts (self w') !! "node_down_rabbit@a" = Some t') /\
  forall t', last_alerts (self w') !! "node_down_rabbit@a" = Some t' -> (0 <= t')%Q.
Proof.
  assert (Hm : monotone (clock recorded_world)).
  { apply (every_monotone 600). lia. }
  assert (Hr : records_are_readings recorded_world).
  { intros k t Hk. exists 0%nat. split; [change (0 < 1)%nat; lia|].
    change (last_alerts (self recorded_world))
      with (<[ "node_down_rabbit@a" := 0%Q ]> (∅ : gmap string Q)) in Hk.
    destruct (decide (k = "node_down_rabbit@a")) as [->|Hne].
    - rewrite lookup_insert_eq in Hk. injection Hk as <-. reflexivity.
    - rewrite lookup_insert_ne in Hk by congruence.
      rewrite lookup_empty in Hk. discriminate. }
  split; [reflexivity|]. split; [exact Hm|]. split; [exact Hr|].
  destruct (records_persist no_render 2 60 recorded_world "node_down_rabbit@a" 0%Q
              eq_refl) as [Hsome Hle].
  split; [exact Hsome|exact (Hle Hm Hr)].
Defined.

(** Without a webhook address two rounds make no request to the webhook. *)
Lemma posts_are_notifications_witness :
  configured (self fresh_world) = false /\
  posts (snd (start_monitoring no_render 2 60 fresh_world)) = posts fresh_world.
Proof.
  split; [reflexivity|].
  apply (proj2 (proj2 (posts_are_notifications no_render 2 60 fresh_world))).
  reflexivity.
Defined.


(** Ten messages and no consumer: the rule alerts; no message and a null
    consumers field: it does nothing. *)
Lemma missing_consumers_rule_witness :
  dict_get starving_queue "consumers" (PNum 0) = Ok (PNum 0) /\
  alerts_at fresh_world 1800 "no_consumers_jobs"
    (MissingConsumers (PStr "jobs") (PNum 10) (PNum 0) 1) warning
    (consumer_monitoring no_render starving_queue (PStr "jobs") (PNum 10) 1800) /\
  consumer_monitoring no_render (PDict idle_entries) (PStr "idle") (PNum 0) 1800 fresh_world
    = (Ok tt, fresh_world).
Proof.
  split; [reflexivity|].
  destruct (missing_consumers_rule no_render starving_queue (PStr "jobs") (PNum 10) (PNum 0)
              1800 fresh_world eq_refl) as (Hiff & Hfire & _).
  destruct (missing_consumers_rule no_render (PDict idle_entries) (PStr "idle") (PNum 0) PNone
              1800 fresh_world eq_refl) as (_ & _ & Hzero & _).
  split.
  - apply Hfire. apply Hiff. exists 10%Q, 0%Q. repeat split; reflexivity.
  - apply (Hzero 0%Q); [reflexivity|]. vm_compute. discriminate.
Defined.


(** A queue that only tells its name, even with a null consumers field,
    raises nothing and alerts nothing. *)
Lemma bare_queue_is_silent_witness :
  assoc "messages" idle_entries = None /\
  check_queue no_render (PDict idle_entries) fresh_world = (Ok tt, fresh_world).
Proof.
  split; [reflexivity|].
  apply (bare_queue_is_silent no_render idle_entries (PStr "idle") fresh_world);
    first [reflexivity | vm_compute; discriminate].
Defined.

(** A node that only tells its name is reported down. *)
Lemma bare_node_reported_down_witness :
  assoc "running" bare_entries = None /\
  check_node no_render (PDict bare_entries) fresh_world =
    alert "node_down_rabbit@b" None (NodeDown (PStr "rabbit@b")) critical fresh_world.
Proof.
  split; [reflexivity|].
  destruct (bare_node_reported_down no_render bare_entries (PStr "rabbit@b") fresh_world
              eq_refl eq_refl) as (_ & Hall).
  apply Hall; first [reflexivity | vm_compute; discriminate].
Defined.

(** An error object answered with status 200 makes the queue check raise
    [AttributeError]. *)
Lemma queue_check_by_answer_witness :
  fst (get_api_data "queues" refused_world) =
    Ok (PDict [("error", PStr "not_authorised")]) /\
  fst (check_queue_health no_render refused_world) = Raise AttributeError.
Proof.
  split; [reflexivity|].
  destruct (queue_check_by_answer no_render (PDict [("error", PStr "not_authorised")])
              refused_world eq_refl) as (_ & _ & _ & Hattr).
  rewrite Hattr; [reflexivity|reflexivity|].
  right. eexists. reflexivity.
Defined.

(** A text among the queues: what is listed after it does not count. *)
Lemma malformed_queue_hides_rest_witness :
  (forall w', exists e, fst (check_queue no_render (PStr "oops") w') = Raise e) /\
  for_each [orders_default; PStr "oops"; starving_queue] (check_queue no_render) fresh_world =
  for_each [orders_default; PStr "oops"] (check_queue no_render) fresh_world.
Proof.
  assert (H : forall w', exists e, fst (check_queue no_render (PStr "oops") w') = Raise e).
  { intros w'. exists AttributeError. reflexivity. }
  split; [exact H|].
  apply (proj2 (malformed_queue_hides_rest no_render [orders_default] [starving_queue] []
                  (PStr "oops") fresh_world H)).
Defined.

(** Under a cooldown of zero a second check, ten minutes after a record,
    answers true. *)
Lemma zero_cooldown_never_suppresses_witness :
  last_alerts (self recorded_world) !! "node_down_rabbit@a" = Some 0%Q /\
  fst (should_send_alert "node_down_rabbit@a" (Some 0) recorded_world) = Ok true.
Proof.
  split; [reflexivity|].
  rewrite (zero_cooldown_never_suppresses "node_down_rabbit@a" 0 recorded_world).
  - reflexivity.
  - reflexivity.
  - intros t Ht. vm_compute in Ht. injection Ht as <-. vm_compute. discriminate.
Defined.

(** A variable of blanks and commas gives the default queues. *)
Lemma long_job_queues_clean_witness :
  blank " , ,, " = true /\
  parse_long_job_queues (Some " , ,, ") = default_long_job_queues.
Proof.
  split; [reflexivity|].
  apply (proj2 (proj2 (proj2 (long_job_queues_clean (Some " , ,, ")))) " , ,, "); reflexivity.
Defined.

(** Two names written with a comma are read back. *)
Lemma long_job_queues_round_trip_witness :
  Forall clean_name ["slow"; "batch.delay"] /\
  parse_long_job_queues (Some "slow,batch.delay") = ["slow"; "batch.delay"].
Proof.
  assert (H : Forall clean_name ["slow"; "batch.delay"]).
  { apply Forall_cons_2; [|apply Forall_cons_2; [|apply Forall_nil_2]];
      (split; [discriminate|split; reflexivity]). }
  split; [exact H|].
  apply (proj1 (long_job_queues_round_trip ["slow"; "batch.delay"] ltac:(discriminate) H)).
Defined.

(** An error object in place of the list of nodes: the node check raises. *)
Lemma node_check_by_answer_witness :
  fst (get_api_data "nodes" refused_world) =
    Ok (PDict [("error", PStr "not_authorised")]) /\
  fst (check_node_health no_render refused_world) = Raise AttributeError.
Proof.
  split; [reflexivity|].
  destruct (node_check_by_answer no_render (PDict [("error", PStr "not_authorised")])
              refused_world eq_refl) as (_ & _ & _ & Hattr).
  rewrite Hattr; [reflexivity|reflexivity|].
  right. eexists. reflexivity.
Defined.

(** A backup alert on the queue [orders] leaves the record of the missing
    consumers of the same queue as it was. *)
Lemma independent_windows_witness :
  OnQueue QueueBackup "orders" <> OnQueue NoConsumers "orders" /\
  last_alerts (self (snd (alert (alert_key (OnQueue QueueBackup "orders")) None
                            (QueueBackupDetected (PStr "orders") (PNum 2000) 1000 (PStr "/")) critical
                            recorded_world)))
    !! alert_key (OnQueue NoConsumers "orders") =
  last_alerts (self recorded_world) !! alert_key (OnQueue NoConsumers "orders").
Proof.
  assert (Hne : OnQueue QueueBackup "orders" <> OnQueue NoConsumers "orders")
    by discriminate.
  split; [exact Hne|].
  apply (independent_windows (OnQueue QueueBackup "orders") (OnQueue NoConsumers "orders")
           None (QueueBackupDetected (PStr "orders") (PNum 2000) 1000 (PStr "/")) critical
           recorded_world Hne).
Defined.

(** * Where the specification and the code part *)

(** C2 as stated fails: two queues named [orders], one in vhost [/] and one
    in vhost [staging], differ in identity and share the key of the queue
    backup rule; checked one after the other, both over the threshold, the
    second is silenced by the record of the first. *)
Lemma alert_key_ignores_vhost :
  queue_identity orders_default <> queue_identity orders_staging /\
  queue_alert_key no_render QueueBackup orders_default =
    queue_alert_key no_render QueueBackup orders_staging /\
  notifications
    (trace (snd ((check_queue no_render orders_default >>
                  check_queue no_render orders_staging) fresh_world))) =
    [QueueBackupDetected (PStr "orders") (PNum 1500) 1000 (PStr "/")].
Proof.
  split; [|split].
  - vm_compute. discriminate.
  - reflexivity.
  - reflexivity.
Qed.

(** C3 as stated fails: a fetch answered with status 503 is a failed fetch
    and leaves the counter at 2; a fetch answered with status 200 and a
    body that does not decode is a failed fetch and moves the counter from
    2 to 1; and after three failures, an alert, a success and three more
    failures within the cooldown, the counter is at the threshold again
    and no second alert is sent. *)
Lemma failed_fetch_not_counted :
  (fst (get_api_data "queues" (world_of two_failures (every 60) unavailable)) = Ok PNone /\
   connection_failures
     (self (snd (get_api_data "queues" (world_of two_failures (every 60) unavailable)))) = 2) /\
  (fst (get_api_data "queues" (world_of two_failures (every 60) garbled)) = Ok PNone /\
   connection_failures
     (self (snd (get_api_data "queues" (world_of two_failures (every 60) garbled)))) = 1) /\
  (let w := snd (flapping_run check_connections flapping_world) in
   connection_failures (self w) = 3 /\
   connection_failure_threshold (thresholds (self w)) = 3 /\
   notifications (trace w) = [ApiConnectionFailed 3]).
Proof.
  split; [|split].
  - split; reflexivity.
  - split; reflexivity.
  - cbn zeta. split; [|split]; reflexivity.
Qed.

